(** * Functions/GMSH/gen_3D_mesh.py : a trace model of the lamination mesher

    [gen_3D_mesh] drives the gmsh kernel through a fixed script of API
    calls.  The kernel is an external collaborator, so the embedding keeps
    it abstract: a [backend] is a state machine that answers every API
    call, the program is written in a small state-and-exception monad over
    it, and each run yields the outcome (normal return or the exception that
    escaped), the backend state it left, and the calls it made, in order. *)

From Stdlib Require Import String.
From Stdlib Require Import ZArith List Bool Lia.
From Stdlib Require Import Floats.
Import ListNotations.
Open Scope string_scope.
Open Scope list_scope.
Open Scope Z_scope.

(** ** Python values *)

(** A Python [float] is an IEEE binary64 number. *)
Definition pyfloat := float.

(** [numpy.pi] *)
Definition pi : pyfloat := 0x1.921fb54442d18p+1%float.

(** Conversion of a Python [int] met in a mixed [int]/[float] expression
    (exact below 2^53, which covers every integer this function converts). *)
Definition of_int (z : Z) : pyfloat :=
  if z <? 0 then PrimFloat.opp (PrimFloat.of_uint63 (Uint63.of_Z (- z)))
  else PrimFloat.of_uint63 (Uint63.of_Z z).

(** A Python [complex]: [Z.real], [Z.imag]. *)
Record complex := Complex { real : pyfloat; imag : pyfloat }.

(** [range(a, b)] *)
Definition range (a b : Z) : list Z :=
  map (fun k => a + Z.of_nat k) (seq 0 (Z.to_nat (b - a))).

(** [len(l)] *)
Definition len {A} (l : list A) : Z := Z.of_nat (List.length l).

(** An exception, by the name of its class. *)
Inductive exn := PyExc (name : string).

Definition IndexError := PyExc "IndexError".
Definition GeometryError := PyExc "GeometryError".

(** What evaluating a Python expression or statement gives. *)
Inductive result (A : Type) :=
| Ok (a : A)
| Raise (e : exn).
Arguments Ok {A} a.
Arguments Raise {A} e.

(** ** The lamination given to the function *)

(** The objects of [tooth_surf.get_lines()].  The function tells them apart
    by [isinstance(line, Arc)] alone; [OtherLine] stands for an object that
    is neither a straight segment nor an arc. *)
Inductive line :=
| Segment (begin end_ : complex)
| Arc (begin end_ center : complex)
| OtherLine (begin end_ : complex).

Definition get_begin (l : line) : complex :=
  match l with
  | Segment b _ | Arc b _ _ | OtherLine b _ => b
  end.

(** [lamination]: the three reads made before the kernel is started may
    each raise; [is_stator] is a plain flag.  The surface returned by
    [get_surface_tooth()] is identified with the list its [get_lines()]
    returns. *)
Record LamSlot := {
  get_surface_tooth : result (list line);  (* lamination.slot.get_surface_tooth() *)
  L1 : result pyfloat;                     (* lamination.L1 *)
  Zs : result Z;                           (* lamination.slot.Zs *)
  is_stator : bool                         (* lamination.is_stator *)
}.

(** ** The gmsh API calls the function makes *)

Definition dimTags := list (Z * Z).

Inductive call :=
| Initialize (argv : list string)
| SetNumber (name : string) (value : pyfloat)
| ModelAdd (name : string)
| AddPoint (x y z meshSize : pyfloat) (tag : Z)
| AddLine (startTag endTag tag : Z)
| AddCircleArc (startTag centerTag endTag tag : Z)
| AddCurveLoop (curveTags : list Z) (tag : Z)
| AddPlaneSurface (wireTags : list Z) (tag : Z)
| AddPhysicalGroup (dim : Z) (tags : list Z) (tag : Z)
| SetPhysicalName (dim tag : Z) (name : string)
| Copy (dt : dimTags)
| Rotate (dt : dimTags) (x y z ax ay az angle : pyfloat)
| Extrude (dt : dimTags) (dx dy dz : pyfloat) (numElements : list Z)
| Synchronize
| Generate (dim : Z)
| Write (fileName : string)
| Finalize.

(** The kernel: a state and its answer to each call.  The only value the
    function reads back is the [dimTags] list of [copy]; a call whose value
    is dropped may answer anything. *)
Record backend := {
  bstate : Type;
  bstep : bstate -> call -> bstate * result dimTags
}.

(** ** The monad of the function body *)

Section Program.

Variable B : backend.

Definition M (A : Type) : Type :=
  bstate B -> result A * bstate B * list call.

Definition ret {A} (a : A) : M A := fun s => (Ok a, s, []).

Definition throw {A} (e : exn) : M A := fun s => (Raise e, s, []).

Definition bind {A C} (m : M A) (k : A -> M C) : M C :=
  fun s =>
    match m s with
    | (Ok a, s1, t1) =>
        match k a s1 with
        | (r, s2, t2) => (r, s2, t1 ++ t2)
        end
    | (Raise e, s1, t1) => (Raise e, s1, t1)
    end.

(** One API call: the kernel moves on, the call is logged, and the answer
    (a value or an exception) is what the call evaluates to. *)
Definition invoke (c : call) : M dimTags :=
  fun s => (snd (bstep B s c), fst (bstep B s c), [c]).

(** Reading an attribute of the argument. *)
Definition read {A} (r : result A) : M A :=
  match r with Ok a => ret a | Raise e => throw e end.

Notation "x <- m ;; k" := (bind m (fun x => k))
  (at level 100, m at next level, right associativity).
Notation "m ;;; k" := (bind m (fun _ => k))
  (at level 100, right associativity).

(** [for x in l: acc = body(x, acc)] *)
Fixpoint for_each {A S} (l : list A) (body : A -> S -> M S) (acc : S) : M S :=
  match l with
  | [] => ret acc
  | x :: l' => acc' <- body x acc ;; for_each l' body acc'
  end.

(** ** The function, block by block *)

(** [-L / 2] *)
Definition z0 (L : pyfloat) : pyfloat := PrimFloat.div (PrimFloat.opp L) (of_int 2).

(** Lines 38-42, one iteration. *)
Definition point_body (L mesh_size : pyfloat) (ln : line) (NPoint : Z) : M Z :=
  let Z := get_begin ln in
  let NPoint := NPoint + 1 in
  invoke (AddPoint (real Z) (imag Z) (z0 L) mesh_size NPoint) ;;;
  ret NPoint.

(** Lines 38-42: "Create all the points of the tooth". *)
Definition create_points (lines : list line) (L mesh_size : pyfloat) : M Z :=
  for_each lines (point_body L mesh_size) 0.

(** Lines 46-63, one iteration; the state is [(NPoint, NLine)]. *)
Definition line_body (nlines : Z) (L mesh_size : pyfloat)
    (ln : line) (st : Z * Z) : M (Z * Z) :=
  let '(NPoint, NLine) := st in
  let NLine := NLine + 1 in
  if NLine =? nlines then
    match ln with
    | Arc _ _ Zc =>
        let NPoint := NPoint + 1 in
        invoke (AddPoint (real Zc) (imag Zc) (z0 L) mesh_size NPoint) ;;;
        invoke (AddCircleArc NLine (NPoint - 1) 1 NLine) ;;;
        ret (NPoint, NLine)
    | _ =>
        invoke (AddLine NLine 1 NLine) ;;;
        ret (NPoint, NLine)
    end
  else
    match ln with
    | Arc _ _ Zc =>
        let NPoint := NPoint + 1 in
        invoke (AddPoint (real Zc) (imag Zc) (z0 L) mesh_size NPoint) ;;;
        invoke (AddCircleArc NLine NPoint (NLine + 1) NLine) ;;;
        ret (NPoint, NLine)
    | _ =>
        invoke (AddLine NLine (NLine + 1) NLine) ;;;
        ret (NPoint, NLine)
    end.

(** Lines 45-63: "Draw all the lines of the tooth". *)
Definition draw_lines (lines : list line) (L mesh_size : pyfloat) (NPoint : Z)
    : M (Z * Z) :=
  for_each lines (line_body (len lines) L mesh_size) (NPoint, 0).

(** Lines 66-69: "Create the Tooth surface". *)
Definition create_tooth_surface (NLine : Z) : M unit :=
  invoke (AddCurveLoop (range 1 (NLine + 1)) 1) ;;;
  invoke (AddPlaneSurface [1] 1) ;;;
  invoke (AddPhysicalGroup 2 [1] 1) ;;;
  invoke (SetPhysicalName 2 1 "Tooth") ;;;
  ret tt.

(** [(ii + 1) * 2 * pi / 36] *)
Definition angle (ii : Z) : pyfloat :=
  PrimFloat.div (PrimFloat.mul (of_int ((ii + 1) * 2)) pi) (of_int 36).

(** Lines 73-76, one iteration; [ov[0][1]] raises on an empty list. *)
Definition copy_body (L : pyfloat) (ii : Z) (surf_list : list Z) : M (list Z) :=
  ov <- invoke (Copy [(2, 1)]) ;;
  invoke (Rotate ov (of_int 0) (of_int 0) (z0 L)
                 (of_int 0) (of_int 0) (of_int 1) (angle ii)) ;;;
  match ov with
  | [] => throw IndexError
  | (_, t) :: _ => ret (surf_list ++ [t])
  end.

(** Lines 72-78: "Copy/Rotate all the tooth to get the 2D lamination". *)
Definition copy_rotate (L : pyfloat) (Zs : Z) : M (list Z) :=
  surf_list <- for_each (range 0 Zs) (copy_body L) [1] ;;
  invoke (AddPhysicalGroup 2 surf_list 2) ;;;
  invoke (SetPhysicalName 2 2 "Lamination") ;;;
  ret surf_list.

(** Lines 81-82, one iteration. *)
Definition extrude_body (L : pyfloat) (Nlayer : Z) (surf : Z) (_ : unit) : M unit :=
  invoke (Extrude [(2, surf)] (of_int 0) (of_int 0) L [Nlayer]) ;;;
  ret tt.

(** Lines 81-82: "Extrude the lamination". *)
Definition extrude_all (surf_list : list Z) (L : pyfloat) (Nlayer : Z) : M unit :=
  for_each surf_list (extrude_body L Nlayer) tt.

(** Lines 83-87. *)
Definition tag_volumes (Zs : Z) (stator : bool) : M unit :=
  invoke (AddPhysicalGroup 3 (range 1 (Zs + 1)) 1) ;;;
  invoke (SetPhysicalName 3 1 (if stator then "stator" else "rotor")) ;;;
  ret tt.

(** Lines 90-95: "Generate the 3D mesh", "Save and close". *)
Definition generate_and_save (save_path : string) : M unit :=
  invoke Synchronize ;;;
  invoke (Generate 3) ;;;
  invoke (Write save_path) ;;;
  invoke Finalize ;;;
  ret tt.

(** Lines 33-35: "Start a new model". *)
Definition start_model (argv : list string) : M unit :=
  invoke (Initialize argv) ;;;
  invoke (SetNumber "General.Terminal" (of_int 1)) ;;;
  invoke (ModelAdd "Pyleecan") ;;;
  ret tt.

(** Lines 37-69: the points, the curves and the "Tooth" surface. *)
Definition planar_loop_builder (tooth_surf : list line) (L mesh_size : pyfloat)
    : M unit :=
  NPoint <- create_points tooth_surf L mesh_size ;;
  st <- draw_lines tooth_surf L mesh_size NPoint ;;
  create_tooth_surface (snd st).

(** Lines 33-95: everything after the three reads. *)
Definition build (tooth_surf : list line) (L : pyfloat) (Zs : Z) (stator : bool)
    (save_path : string) (mesh_size : pyfloat) (Nlayer : Z)
    (argv : list string) : M unit :=
  start_model argv ;;;
  planar_loop_builder tooth_surf L mesh_size ;;;
  surf_list <- copy_rotate L Zs ;;
  extrude_all surf_list L Nlayer ;;;
  tag_volumes Zs stator ;;;
  generate_and_save save_path.

(** [gen_3D_mesh(lamination, save_path, mesh_size, Nlayer)]; [argv] is
    [sys.argv]. *)
Definition gen_3D_mesh (lamination : LamSlot) (save_path : string)
    (mesh_size : pyfloat) (Nlayer : Z) (argv : list string) : M unit :=
  tooth_surf <- read (get_surface_tooth lamination) ;;
  L <- read (L1 lamination) ;;
  Zs <- read (Zs lamination) ;;
  build tooth_surf L Zs (is_stator lamination) save_path mesh_size Nlayer argv.

End Program.

Arguments ret {B A} a.
Arguments throw {B A} e.
Arguments bind {B A C} m k.
Arguments read {B A} r.
Arguments for_each {B A S} l body acc.

(** The three components of a run. *)
Definition outcome {St A} (r : result A * St * list call) : result A := fst (fst r).
Definition final {St A} (r : result A * St * list call) : St := snd (fst r).
Definition calls {St A} (r : result A * St * list call) : list call := snd r.

(** ** Reading a log of calls *)


Definition is_primitive (c : call) : bool :=
  match c with
  | AddPoint _ _ _ _ _ | AddLine _ _ _ | AddCircleArc _ _ _ _ => true
  | _ => false
  end.

(** A curve of the log: its start point, end point and own handle. *)
Record curve := Curve { c_start : Z; c_end : Z; c_tag : Z }.

Definition curve_of (c : call) : list curve :=
  match c with
  | AddLine s e t => [Curve s e t]
  | AddCircleArc s _ e t => [Curve s e t]
  | _ => []
  end.

Definition curves (t : list call) : list curve := flat_map curve_of t.

Definition loop_of (c : call) : list (list Z) :=
  match c with AddCurveLoop l _ => [l] | _ => [] end.

(** The curve lists of the [addCurveLoop] calls. *)
Definition curve_loops (t : list call) : list (list Z) := flat_map loop_of t.

Definition group_of (dim id : Z) (c : call) : list (list Z) :=
  match c with
  | AddPhysicalGroup d tags i => if (d =? dim) && (i =? id) then [tags] else []
  | _ => []
  end.

(** The member lists given to [addPhysicalGroup(dim, ..., id)]. *)
Definition group_tags (dim id : Z) (t : list call) : list (list Z) :=
  flat_map (group_of dim id) t.

Definition name_of (dim id : Z) (c : call) : list string :=
  match c with
  | SetPhysicalName d i n => if (d =? dim) && (i =? id) then [n] else []
  | _ => []
  end.

Definition group_names (dim id : Z) (t : list call) : list string :=
  flat_map (name_of dim id) t.

Definition copy_of (c : call) : list dimTags :=
  match c with Copy dt => [dt] | _ => [] end.

(** The arguments of the [copy] calls. *)
Definition copies (t : list call) : list dimTags := flat_map copy_of t.

Definition extrude_of (c : call)
    : list (dimTags * (pyfloat * pyfloat * pyfloat) * list Z) :=
  match c with
  | Extrude dt dx dy dz n => [(dt, (dx, dy, dz), n)]
  | _ => []
  end.

(** The [extrude] calls: what is swept, the displacement, the layers. *)
Definition extrusions (t : list call)
    : list (dimTags * (pyfloat * pyfloat * pyfloat) * list Z) :=
  flat_map extrude_of t.

(** A rotation of the log: what is turned, the pivot, the axis, the angle. *)
Record rotation := Rotation {
  r_what : dimTags;
  r_pivot : pyfloat * pyfloat * pyfloat;
  r_axis : pyfloat * pyfloat * pyfloat;
  r_angle : pyfloat
}.

Definition rotation_of (c : call) : list rotation :=
  match c with
  | Rotate dt x y z ax ay az a => [Rotation dt (x, y, z) (ax, ay, az) a]
  | _ => []
  end.

Definition rotations (t : list call) : list rotation := flat_map rotation_of t.

(** ** A recording kernel *)

(** Modelled from the spec: the geometry kernel behind the gmsh API, which is
    not part of the repository.  Section 6 gives its interface and section 3
    its registry of handles; this double keeps the surfaces and the volumes,
    hands out the next unused handle on [copy] and [extrude], starts from an
    empty registry on [initialize], keeps its records after [finalize] so
    that they can be inspected, and raises where [faults] says so. *)
Record registry := Registry {
  surfaces : list Z;
  volumes : list (Z * Z)      (* volume handle, surface it was swept from *)
}.

Definition fresh : registry := Registry [] [].

Definition next_tag (used : list Z) : Z := 1 + fold_right Z.max 0 used.

Fixpoint allocate (n : Z) (dt : dimTags) : dimTags :=
  match dt with
  | [] => []
  | (d, _) :: dt' => (d, n) :: allocate (n + 1) dt'
  end.

Definition fake_step (faults : call -> option exn) (reg : registry) (c : call)
    : registry * result dimTags :=
  match faults c with
  | Some e => (reg, Raise e)
  | None =>
      match c with
      | Initialize _ => (fresh, Ok [])
      | AddPlaneSurface _ tag =>
          (Registry (surfaces reg ++ [tag]) (volumes reg), Ok [])
      | Copy dt =>
          let ov := allocate (next_tag (surfaces reg)) dt in
          (Registry (surfaces reg ++ map snd ov) (volumes reg), Ok ov)
      | Extrude dt _ _ _ _ =>
          let ov := allocate (next_tag (map fst (volumes reg))) dt in
          (Registry (surfaces reg) (volumes reg ++ combine (map snd ov) (map snd dt)),
           Ok (map (fun v => (3, snd v)) ov))
      | _ => (reg, Ok [])
      end
  end.

Definition fake (faults : call -> option exn) : backend :=
  {| bstate := registry; bstep := fake_step faults |}.

Definition no_fault (c : call) : option exn := None.



(** ** Sample inputs *)

Definition pt (x y : pyfloat) : complex := Complex x y.

(** A unit square of four straight segments. *)
Definition square : list line :=
  [ Segment (pt 0 0) (pt 1 0); Segment (pt 1 0) (pt 1 1);
    Segment (pt 1 1) (pt 0 1); Segment (pt 0 1) (pt 0 0) ]%float.

(** Two straight sides closed by an arc. *)
Definition wedge : list line :=
  [ Segment (pt 0 0) (pt 1 0); Segment (pt 1 0) (pt 0 1);
    Arc (pt 0 1) (pt 0 0) (pt 0 0.5) ]%float.

(** The square with one side of an unknown kind. *)
Definition odd_square : list line :=
  [ Segment (pt 0 0) (pt 1 0); OtherLine (pt 1 0) (pt 1 1);
    Segment (pt 1 1) (pt 0 1); Segment (pt 0 1) (pt 0 0) ]%float.

Definition lam_of (tooth : list line) (Zs : Z) : LamSlot :=
  {| get_surface_tooth := Ok tooth; L1 := Ok 0.5%float; Zs := Ok Zs;
     is_stator := true |}.

Definition run_fake (faults : call -> option exn) (lam : LamSlot)
    : result unit * registry * list call :=
  gen_3D_mesh (fake faults) lam "Lamination.msh" 0.25%float 2 [] fresh.

(** ** Vocabulary of the statements *)

(** [emits P m]: whatever the kernel answers, [m] makes only calls in [P]. *)
Definition emits (B : backend) {A} (P : call -> Prop) (m : M B A) : Prop :=
  forall s, Forall P (calls (m s)).

(** A kernel that raises on no call and whose [copy] gives back one new
    entity for each entity it is given. *)
Definition cooperative (B : backend) : Prop :=
  forall (s : bstate B) (c : call),
    exists ov, snd (bstep B s c) = Ok ov /\
               forall dt, c = Copy dt -> length ov = length dt.

(** [m] returns normally from every kernel state. *)
Definition returns (B : backend) {A} (m : M B A) : Prop :=
  forall s, exists a, outcome (m s) = Ok a.


(** [initialize] opens a fresh registry: what it leaves and answers does not
    depend on what was there before. *)
Definition initialize_resets (B : backend) : Prop :=
  forall (s s' : bstate B) (argv : list string),
    bstep B s (Initialize argv) = bstep B s' (Initialize argv).

(** The curve the [NLine+1]-th iteration of the second loop draws among
    [nlines] segments, and the curves of the iterations after it. *)
Fixpoint expected_curves (nlines : Z) (l : list line) (NLine : Z) : list curve :=
  match l with
  | [] => []
  | _ :: l' =>
      let n := NLine + 1 in
      Curve n (if n =? nlines then 1 else n + 1) n :: expected_curves nlines l' n
  end.

(** The exception of the first read that raises, in the order of lines 24,
    29 and 30. *)
Definition failed_read (lam : LamSlot) : option exn :=
  match get_surface_tooth lam, L1 lam, Zs lam with
  | Raise e, _, _ => Some e
  | Ok _, Raise e, _ => Some e
  | Ok _, Ok _, Raise e => Some e
  | Ok _, Ok _, Ok _ => None
  end.



Definition is_line_or_arc (l : line) : bool :=
  match l with OtherLine _ _ => false | _ => true end.

(** The straight segment with the end points of [l], when [l] is of an
    unknown kind. *)
Definition as_segment (l : line) : line :=
  match l with OtherLine b e => Segment b e | _ => l end.

Definition straighten (lam : LamSlot) : LamSlot :=
  {| get_surface_tooth :=
       match get_surface_tooth lam with
       | Ok tooth => Ok (map as_segment tooth)
       | Raise e => Raise e
       end;
     L1 := L1 lam; Zs := Zs lam; is_stator := is_stator lam |}.

(** The angle the specification asks for: [i * (2 * pi / N_total)]. *)
Definition spec_angle (N_total i : Z) : pyfloat :=
  PrimFloat.mul (of_int i) (PrimFloat.div (PrimFloat.mul (of_int 2) pi) (of_int N_total)).

(** Pivot, axis and angle of a rotation. *)
Definition placement (r : rotation)
    : (pyfloat * pyfloat * pyfloat) * (pyfloat * pyfloat * pyfloat) * pyfloat :=
  (r_pivot r, r_axis r, r_angle r).

(** The calls the replicator, the extruder and the tagger are read by. *)
Definition late (c : call) : Prop :=
  group_of 2 2 c = [] /\ copy_of c = [] /\ rotation_of c = [] /\
  extrude_of c = [] /\ group_of 3 1 c = [] /\ name_of 3 1 c = [].

(** ** Vocabulary of the further properties *)

(** A point of the log. *)
Record point := Point {
  p_x : pyfloat; p_y : pyfloat; p_z : pyfloat; p_size : pyfloat; p_tag : Z
}.

Definition point_of (c : call) : list point :=
  match c with
  | AddPoint x y z ms tag => [Point x y z ms tag]
  | _ => []
  end.

(** The [addPoint] calls. *)
Definition points (t : list call) : list point := flat_map point_of t.

(** The point that [addPoint(Z.real, Z.imag, -L / 2, mesh_size, tag)] makes. *)
Definition on_plane (L mesh_size : pyfloat) (pz : complex * Z) : point :=
  Point (real (fst pz)) (imag (fst pz)) (z0 L) mesh_size (snd pz).

Definition arc_of (c : call) : list (Z * Z) :=
  match c with AddCircleArc _ c _ t => [(t, c)] | _ => [] end.

(** The [addCircleArc] calls: own handle and centre handle. *)
Definition arc_centres (t : list call) : list (Z * Z) := flat_map arc_of t.

Definition kind_of (c : call) : list bool :=
  match c with
  | AddLine _ _ _ => [false]
  | AddCircleArc _ _ _ _ => [true]
  | _ => []
  end.

(** For each curve of the log, whether it is a circular arc. *)
Definition curve_kinds (t : list call) : list bool := flat_map kind_of t.

Definition is_Arc (ln : line) : bool :=
  match ln with Arc _ _ _ => true | _ => false end.

Definition center_of (ln : line) : list complex :=
  match ln with Arc _ _ c => [c] | _ => [] end.

(** The centres of the arcs of a boundary, in order. *)
Definition centers (lines : list line) : list complex := flat_map center_of lines.

(** Whether the last segment of a boundary is an arc. *)
Fixpoint closes_with_arc (lines : list line) : bool :=
  match lines with
  | [] => false
  | [ln] => is_Arc ln
  | _ :: l' => closes_with_arc l'
  end.

(** The calls of one iteration of the first loop. *)
Definition point_calls (L mesh_size : pyfloat) (ln : line) (NPoint : Z) : list call :=
  [AddPoint (real (get_begin ln)) (imag (get_begin ln)) (z0 L) mesh_size (NPoint + 1)].

(** The calls of one iteration of the second loop, and the counters after it. *)
Definition line_calls (nlines : Z) (L mesh_size : pyfloat) (ln : line)
    (st : Z * Z) : list call :=
  let n := snd st + 1 in
  match ln with
  | Arc _ _ Zc =>
      [ AddPoint (real Zc) (imag Zc) (z0 L) mesh_size (fst st + 1);
        if n =? nlines then AddCircleArc n (fst st + 1 - 1) 1 n
        else AddCircleArc n (fst st + 1) (n + 1) n ]
  | _ => [ if n =? nlines then AddLine n 1 n else AddLine n (n + 1) n ]
  end.

Definition line_next (ln : line) (st : Z * Z) : Z * Z :=
  (if is_Arc ln then fst st + 1 else fst st, snd st + 1).

(** The calls of a loop whose iterations make the calls [f x acc] and leave
    the accumulator [g x acc]. *)
Fixpoint loop_script {A S} (f : A -> S -> list call) (g : A -> S -> S)
    (l : list A) (acc : S) : list call :=
  match l with
  | [] => []
  | x :: l' => f x acc ++ loop_script f g l' (g x acc)
  end.

Definition loop_state {A S} (g : A -> S -> S) (l : list A) (acc : S) : S :=
  fold_left (fun acc x => g x acc) l acc.

(** The calls of the planar loop builder, when no call raises. *)
Definition builder_script (lines : list line) (L mesh_size : pyfloat) : list call :=
  loop_script (point_calls L mesh_size) (fun _ n => n + 1) lines 0
  ++ loop_script (line_calls (len lines) L mesh_size) line_next lines (len lines, 0)
  ++ [ AddCurveLoop (range 1 (len lines + 1)) 1; AddPlaneSurface [1] 1;
       AddPhysicalGroup 2 [1] 1; SetPhysicalName 2 1 "Tooth" ].

(** [m] follows the script [t]: whatever the kernel answers its log is an
    initial part of [t], and when it returns it has made all of [t] and
    returns [a]. *)
Definition scripted (B : backend) {A} (m : M B A) (t : list call) (a : A) : Prop :=
  forall s,
    (exists rest, t = calls (m s) ++ rest) /\
    (forall a', outcome (m s) = Ok a' -> a' = a /\ calls (m s) = t).

(** The kernel state after the calls of a log, and its answers to them. *)
Fixpoint after (B : backend) (s : bstate B) (t : list call) : bstate B :=
  match t with
  | [] => s
  | c :: t' => after B (fst (bstep B s c)) t'
  end.

Fixpoint replies (B : backend) (s : bstate B) (t : list call)
    : list (result dimTags) :=
  match t with
  | [] => []
  | c :: t' => snd (bstep B s c) :: replies B (fst (bstep B s c)) t'
  end.

Definition is_Ok {A} (r : result A) : bool :=
  match r with Ok _ => true | Raise _ => false end.

(** Every call of the log was answered with a value. *)
Definition all_returned (B : backend) (s : bstate B) (t : list call) : bool :=
  forallb is_Ok (replies B s t).

(** A kernel that raises on no call. *)
Definition obliging (B : backend) : Prop :=
  forall (s : bstate B) (c : call), is_Ok (snd (bstep B s c)) = true.

(** The one exception the function raises by itself: [ov[0][1]] on the empty
    list that [copy] gave and [rotate] was just called with. *)
Definition own_error (e : exn) (t : list call) : Prop :=
  e = IndexError /\
  exists t0 x y z ax ay az a,
    t = t0 ++ [Copy [(2, 1)]; Rotate [] x y z ax ay az a].

(** For the blocks that raise nothing by themselves. *)
Definition no_error (e : exn) (t : list call) : Prop := False.

(** How a run from kernel state [s] can end. *)
Definition clean_exit (B : backend) {A} (own : exn -> list call -> Prop)
    (s : bstate B) (r : result A * bstate B * list call) : Prop :=
  final r = after B s (calls r) /\
  all_returned B s (removelast (calls r)) = true /\
  match outcome r with
  | Ok _ => all_returned B s (calls r) = true
  | Raise e =>
      last (replies B s (calls r)) (Ok []) = Raise e \/
      (all_returned B s (calls r) = true /\ own e (calls r))
  end.

(** A kernel that cannot draw arcs. *)
Definition arcs_fail (c : call) : option exn :=
  match c with AddCircleArc _ _ _ _ => Some GeometryError | _ => None end.

(** A kernel that does nothing and answers every call with the empty list. *)
Definition mute : backend :=
  {| bstate := unit; bstep := fun s _ => (s, Ok []) |}.

Definition write_of (c : call) : list string :=
  match c with Write f => [f] | _ => [] end.

(** The files written. *)
Definition writes (t : list call) : list string := flat_map write_of t.

Definition any_group_of (c : call) : list (Z * Z * list Z) :=
  match c with AddPhysicalGroup d tags i => [(d, i, tags)] | _ => [] end.

(** Every physical group made: dimension, id, members. *)
Definition groups (t : list call) : list (Z * Z * list Z) :=
  flat_map any_group_of t.

Definition any_name_of (c : call) : list (Z * Z * string) :=
  match c with SetPhysicalName d i n => [(d, i, n)] | _ => [] end.

(** Every physical name given: dimension, id, name. *)
Definition names (t : list call) : list (Z * Z * string) :=
  flat_map any_name_of t.

(** [ov[0][1]] on a list that is not empty. *)
Definition first_tag (ov : dimTags) : Z := snd (hd (0, 0) ov).

(** The calls of the replication loop from index [ii] on, when [copy]
    answers [ovs] in turn. *)
Fixpoint copy_script (L : pyfloat) (ii : Z) (ovs : list dimTags) : list call :=
  match ovs with
  | [] => []
  | ov :: ovs' =>
      Copy [(2, 1)]
      :: Rotate ov (of_int 0) (of_int 0) (z0 L)
                (of_int 0) (of_int 0) (of_int 1) (angle ii)
      :: copy_script L (ii + 1) ovs'
  end.

(** The calls of a whole run, when no call raises and [copy] answers [ovs]
    in turn. *)
Definition run_script (tooth : list line) (L : pyfloat) (zs : Z) (stator : bool)
    (save_path : string) (mesh_size : pyfloat) (Nlayer : Z) (argv : list string)
    (ovs : list dimTags) : list call :=
  [ Initialize argv; SetNumber "General.Terminal" (of_int 1); ModelAdd "Pyleecan" ]
  ++ builder_script tooth L mesh_size
  ++ copy_script L 0 ovs
  ++ [ AddPhysicalGroup 2 (1 :: map first_tag ovs) 2;
       SetPhysicalName 2 2 "Lamination" ]
  ++ map (fun surf => Extrude [(2, surf)] (of_int 0) (of_int 0) L [Nlayer])
         (1 :: map first_tag ovs)
  ++ [ AddPhysicalGroup 3 (range 1 (zs + 1)) 1;
       SetPhysicalName 3 1 (if stator then "stator" else "rotor");
       Synchronize; Generate 3; Write save_path; Finalize ].

(** The four calls that close a run. *)
Definition is_closing (c : call) : bool :=
  match c with
  | Synchronize | Generate _ | Write _ | Finalize => true
  | _ => false
  end.

(** The members of the groups of dimension [dim] and id [id] among groups. *)
Definition members_of (dim id : Z) (g : Z * Z * list Z) : list (list Z) :=
  let '(d, i, tags) := g in
  if (d =? dim) && (i =? id) then [tags] else [].

(** Where the write stands in a log that has one. *)
Definition write_shape (save_path : string) (t : list call) : Prop :=
  writes t = [] \/
  exists t0 rest,
    t = t0 ++ [Synchronize; Generate 3; Write save_path] ++ rest /\
    writes t0 = [] /\ (rest = [] \/ rest = [Finalize]).

(** * Properties *)

(** ** Lists and ranges *)

Lemma range_nil (a b : Z) : b <= a -> range a b = [].
Proof.
  intros H. unfold range.
  replace (Z.to_nat (b - a)) with 0%nat by lia. reflexivity.
Qed.

Lemma range_cons (a b : Z) : a < b -> range a b = a :: range (a + 1) b.
Proof.
  intros H. unfold range.
  replace (Z.to_nat (b - a)) with (S (Z.to_nat (b - (a + 1)))) by lia.
  cbn [seq map]. f_equal; [lia|].
  rewrite <- seq_shift, map_map.
  apply map_ext. intros k. lia.
Qed.

Lemma range_length (a b : Z) : length (range a b) = Z.to_nat (b - a).
Proof. unfold range. now rewrite length_map, length_seq. Qed.

Lemma len_cons {A} (x : A) (l : list A) : len (x :: l) = len l + 1.
Proof. unfold len. cbn [length]. lia. Qed.

Lemma len_nonneg {A} (l : list A) : 0 <= len l.
Proof. unfold len. lia. Qed.

Lemma flat_map_nil_Forall {A X} (f : A -> list X) (l : list A) :
  Forall (fun a => f a = []) l -> flat_map f l = [].
Proof.
  induction 1 as [|a l Ha _ IH]; cbn; [reflexivity|].
  now rewrite Ha, IH.
Qed.


(** ** Laws of the monad *)

Section Laws.

Variable B : backend.

Lemma bind_Ok {A C} (m : M B A) (k : A -> M B C) s c s2 t :
  bind m k s = (Ok c, s2, t) ->
  exists a s1 t1 t2,
    m s = (Ok a, s1, t1) /\ k a s1 = (Ok c, s2, t2) /\ t = t1 ++ t2.
Proof.
  unfold bind. destruct (m s) as [[[a|e] s1] t1]; [|discriminate].
  destruct (k a s1) as [[r s2'] t2] eqn:Hk. intros H.
  injection H as -> -> <-. now exists a, s1, t1, t2.
Qed.

Lemma invoke_Ok (c : call) s v s' t :
  invoke B c s = (Ok v, s', t) -> t = [c].
Proof. unfold invoke. now intros [= _ _ <-]. Qed.

Lemma ret_Ok {A} (a b : A) (s s' : bstate B) t :
  ret a s = (Ok b, s', t) -> b = a /\ s' = s /\ t = [].
Proof. unfold ret. now intros [= <- <- <-]. Qed.

(** Sequencing two calls-then-return, the shape of every loop body. *)
Lemma step_Ok {A} (c : call) (k : M B A) s a s' t :
  bind (invoke B c) (fun _ => k) s = (Ok a, s', t) ->
  exists s1 t', k s1 = (Ok a, s', t') /\ t = c :: t'.
Proof.
  intros H. apply bind_Ok in H as (v & s1 & t1 & t2 & H1 & H2 & ->).
  apply invoke_Ok in H1 as ->. now exists s1, t2.
Qed.

Lemma emits_ret {A} P (a : A) : emits B P (ret a).
Proof. intros s. constructor. Qed.

Lemma emits_throw {A} P e : emits B P (@throw B A e).
Proof. intros s. constructor. Qed.

Lemma emits_read {A} P (r : result A) : emits B P (read r).
Proof. destruct r; [apply emits_ret | apply emits_throw]. Qed.

Lemma emits_invoke (P : call -> Prop) c : P c -> emits B P (invoke B c).
Proof. intros H s. cbn. now repeat constructor. Qed.

Lemma emits_bind {A C} P (m : M B A) (k : A -> M B C) :
  emits B P m -> (forall a, emits B P (k a)) -> emits B P (bind m k).
Proof.
  intros Hm Hk s. specialize (Hm s). unfold bind.
  destruct (m s) as [[[a|e] s1] t1]; cbn in Hm |- *; [|exact Hm].
  specialize (Hk a s1). destruct (k a s1) as [[r s2] t2]. cbn in Hk |- *.
  apply Forall_app. now split.
Qed.

Lemma emits_for_each {A S} P (l : list A) (body : A -> S -> M B S) :
  (forall x acc, emits B P (body x acc)) ->
  forall acc, emits B P (for_each l body acc).
Proof.
  intros Hb. induction l as [|x l IH]; intros acc; cbn [for_each].
  - apply emits_ret.
  - apply emits_bind; [apply Hb | exact IH].
Qed.

(** The first call of [m] is the first call of [m] followed by [k]. *)
Lemma bind_head {A C} (m : M B A) (k : A -> M B C) s c :
  hd_error (calls (m s)) = Some c -> hd_error (calls (bind m k s)) = Some c.
Proof.
  unfold bind. destruct (m s) as [[[a|e] s1] t1]; cbn; [|trivial].
  destruct (k a s1) as [[r s2] t2]. cbn.
  destruct t1; [discriminate | trivial].
Qed.

Lemma returns_ret {A} (a : A) : returns B (ret a).
Proof. intros s. now exists a. Qed.

Lemma returns_invoke c : cooperative B -> returns B (invoke B c).
Proof.
  intros HB s. destruct (HB s c) as (ov & Hov & _). exists ov. exact Hov.
Qed.

Lemma returns_bind {A C} (m : M B A) (k : A -> M B C) :
  returns B m -> (forall a, returns B (k a)) -> returns B (bind m k).
Proof.
  intros Hm Hk s. destruct (Hm s) as (a & Ha). unfold bind.
  destruct (m s) as [[r s1] t1]. cbn in Ha. subst r.
  destruct (Hk a s1) as (c & Hc). destruct (k a s1) as [[r s2] t2].
  cbn in Hc. subst r. now exists c.
Qed.

Lemma returns_for_each {A S} (l : list A) (body : A -> S -> M B S) :
  (forall x acc, returns B (body x acc)) ->
  forall acc, returns B (for_each l body acc).
Proof.
  intros Hb. induction l as [|x l IH]; intros acc; cbn [for_each].
  - apply returns_ret.
  - apply returns_bind; [apply Hb | exact IH].
Qed.

End Laws.

Ltac returns_tac HB :=
  repeat first
    [ apply returns_bind; [|intros ?]
    | apply returns_for_each; intros ? ?
    | apply returns_ret
    | apply (returns_invoke _ _ HB) ].

Ltac emits_tac :=
  repeat first
    [ apply emits_bind; [|intros ?]
    | apply emits_for_each; intros ? ?
    | apply emits_ret
    | apply emits_throw
    | apply emits_read
    | apply emits_invoke ].

(** ** The planar loop builder *)

Lemma expected_curves_length nlines l NLine :
  length (expected_curves nlines l NLine) = length l.
Proof.
  revert NLine. induction l as [|x l IH]; intros NLine; cbn; [reflexivity|].
  now rewrite IH.
Qed.

Lemma expected_curves_tags nlines l NLine :
  map c_tag (expected_curves nlines l NLine) = range (NLine + 1) (NLine + len l + 1).
Proof.
  revert NLine. induction l as [|x l IH]; intros NLine; cbn [expected_curves map].
  - rewrite range_nil; [reflexivity | unfold len; cbn; lia].
  - rewrite len_cons, range_cons by (pose proof (len_nonneg l); lia).
    cbn [c_tag]. f_equal. rewrite IH. f_equal. lia.
Qed.

Lemma expected_curves_first nlines l NLine d :
  l <> [] -> c_start (hd d (expected_curves nlines l NLine)) = NLine + 1.
Proof. destruct l; [congruence | reflexivity]. Qed.

Lemma expected_curves_last l : forall NLine d,
  l <> [] ->
  c_end (last (expected_curves (NLine + len l) l NLine) d) = 1.
Proof.
  induction l as [|x l IH]; intros NLine d Hne; [congruence|].
  destruct l as [|y l].
  - cbn. unfold len. cbn. now rewrite Z.eqb_refl.
  - rewrite len_cons. cbn [expected_curves].
    replace (NLine + (len (y :: l) + 1)) with (NLine + 1 + len (y :: l)) by lia.
    specialize (IH (NLine + 1) d ltac:(discriminate)).
    cbn [expected_curves] in IH |- *. exact IH.
Qed.

Section Builder.

Variable B : backend.

Lemma create_points_draws_nothing lines L mesh_size :
  emits B (fun c => curve_of c = [] /\ loop_of c = [])
        (create_points B lines L mesh_size).
Proof.
  unfold create_points, point_body. emits_tac. now split.
Qed.

(** One iteration of the second loop that returns has drawn one curve. *)
Lemma line_body_Ok nlines L mesh_size ln NPoint NLine s st s' t :
  line_body B nlines L mesh_size ln (NPoint, NLine) s = (Ok st, s', t) ->
  snd st = NLine + 1 /\
  curves t = [Curve (NLine + 1) (if NLine + 1 =? nlines then 1 else NLine + 1 + 1)
                    (NLine + 1)] /\
  curve_loops t = [].
Proof.
  unfold line_body. intros H.
  destruct (NLine + 1 =? nlines); destruct ln;
    repeat (apply step_Ok in H as (? & ? & H & ->));
    apply ret_Ok in H as (-> & _ & ->); now repeat split.
Qed.

Lemma line_loop_Ok nlines L mesh_size l : forall NPoint NLine s st s' t,
  for_each l (line_body B nlines L mesh_size) (NPoint, NLine) s = (Ok st, s', t) ->
  snd st = NLine + len l /\
  curves t = expected_curves nlines l NLine /\
  curve_loops t = [].
Proof.
  induction l as [|x l IH]; intros NPoint NLine s st s' t H; cbn [for_each] in H.
  - apply ret_Ok in H as (-> & _ & ->). unfold len. cbn. repeat split. lia.
  - apply bind_Ok in H as ([np nl] & s1 & t1 & t2 & H1 & H2 & ->).
    apply line_body_Ok in H1 as (Hnl & Hc1 & Hl1). cbn in Hnl. subst nl.
    apply IH in H2 as (Hst & Hc2 & Hl2).
    unfold curves, curve_loops in *. rewrite !flat_map_app, Hc1, Hc2, Hl1, Hl2.
    rewrite len_cons. cbn [expected_curves]. repeat split. lia.
Qed.

Lemma draw_lines_Ok lines L mesh_size NPoint s st s' t :
  draw_lines B lines L mesh_size NPoint s = (Ok st, s', t) ->
  snd st = len lines /\
  curves t = expected_curves (len lines) lines 0 /\
  curve_loops t = [].
Proof. unfold draw_lines. intros H. now apply line_loop_Ok in H. Qed.

Lemma create_tooth_surface_Ok NLine s u s' t :
  create_tooth_surface B NLine s = (Ok u, s', t) ->
  t = [ AddCurveLoop (range 1 (NLine + 1)) 1; AddPlaneSurface [1] 1;
        AddPhysicalGroup 2 [1] 1; SetPhysicalName 2 1 "Tooth" ].
Proof.
  unfold create_tooth_surface. intros H.
  repeat (apply step_Ok in H as (? & ? & H & ->)).
  now apply ret_Ok in H as (_ & _ & ->).
Qed.

(** The log of a builder run that returns: points and curves, then the four
    calls that make and name the surface. *)
Lemma planar_loop_builder_Ok lines L mesh_size s u s' t :
  planar_loop_builder B lines L mesh_size s = (Ok u, s', t) ->
  exists t1,
    t = t1 ++ [ AddCurveLoop (range 1 (len lines + 1)) 1; AddPlaneSurface [1] 1;
                AddPhysicalGroup 2 [1] 1; SetPhysicalName 2 1 "Tooth" ] /\
    curves t1 = expected_curves (len lines) lines 0 /\
    curve_loops t1 = [].
Proof.
  unfold planar_loop_builder. intros H.
  apply bind_Ok in H as (np & s1 & t1 & t2 & H1 & H & ->).
  apply bind_Ok in H as (st & s2 & t3 & t4 & H2 & H3 & ->).
  apply draw_lines_Ok in H2 as (Hst & Hc & Hl).
  apply create_tooth_surface_Ok in H3 as ->. rewrite Hst.
  pose proof (create_points_draws_nothing lines L mesh_size s) as Hp.
  rewrite H1 in Hp. cbn in Hp.
  exists (t1 ++ t3). rewrite app_assoc. split; [reflexivity|].
  unfold curves, curve_loops in *. rewrite !flat_map_app, Hc, Hl.
  rewrite !flat_map_nil_Forall; [now split | |];
    eapply Forall_impl; try exact Hp; cbn; tauto.
Qed.

Lemma planar_loop_builder_returns lines L mesh_size :
  cooperative B -> returns B (planar_loop_builder B lines L mesh_size).
Proof.
  intros HB.
  unfold planar_loop_builder, create_points, point_body, draw_lines,
    create_tooth_surface.
  apply returns_bind; [returns_tac HB|]. intros NPoint.
  apply returns_bind; [|intros st; returns_tac HB].
  apply returns_for_each. intros ln [np nl]. unfold line_body.
  destruct (nl + 1 =? len lines); destruct ln; returns_tac HB.
Qed.

End Builder.

(** The recording kernel, without faults, is cooperative. *)
Lemma allocate_length dt : forall n, length (allocate n dt) = length dt.
Proof.
  induction dt as [|[d t] dt IH]; intros n; cbn; [reflexivity|].
  now rewrite IH.
Qed.

Lemma fake_cooperative : cooperative (fake no_fault).
Proof.
  intros s c. destruct c; cbn; eexists; (split; [reflexivity|]);
    intros ? [=]; subst.
  apply allocate_length.
Qed.

(** C6.  For every non-empty tooth boundary: over a kernel that raises on
    no call the planar loop builder returns, and a builder run that returns
    has drawn exactly one curve per segment; the single [addCurveLoop] call
    comes after all of them and lists their handles in creation order,
    which are 1 .. len; the first curve starts at point handle 1 and the
    last curve ends at point handle 1, so the loop is closed.  (Closedness
    of the input coordinates and the kinds of the segments play no part.) *)
Theorem loop_closed (B : backend) (lines : list line) (L mesh_size : pyfloat)
    (s : bstate B) :
  lines <> [] ->
  (cooperative B -> outcome (planar_loop_builder B lines L mesh_size s) = Ok tt) /\
  (outcome (planar_loop_builder B lines L mesh_size s) = Ok tt ->
   exists t1 t2,
     calls (planar_loop_builder B lines L mesh_size s)
       = t1 ++ AddCurveLoop (map c_tag (curves t1)) 1 :: t2 /\
     curves t2 = [] /\ curve_loops t1 = [] /\ curve_loops t2 = [] /\
     length (curves t1) = length lines /\
     map c_tag (curves t1) = range 1 (len lines + 1) /\
     forall d, c_start (hd d (curves t1)) = 1 /\
               c_end (last (curves t1) d) = c_start (hd d (curves t1))).
Proof.
  intros Hne. split.
  - intros HB.
    destruct (planar_loop_builder_returns B lines L mesh_size HB s) as ([] & H).
    exact H.
  - intros Hok.
    destruct (planar_loop_builder B lines L mesh_size s) as [[r s'] t] eqn:Hrun.
    cbn in Hok. subst r.
    apply planar_loop_builder_Ok in Hrun as (t1 & -> & Hc & Hl).
    exists t1, [AddPlaneSurface [1] 1; AddPhysicalGroup 2 [1] 1;
                SetPhysicalName 2 1 "Tooth"].
    cbn [calls snd]. rewrite Hc, expected_curves_tags, expected_curves_length.
    repeat split; try assumption.
    + now apply expected_curves_first.
    + rewrite expected_curves_first by assumption.
      exact (expected_curves_last lines 0 d Hne).
Qed.

Lemma loop_closed_witness :
  outcome (planar_loop_builder (fake no_fault) square 0.5%float 0.25%float fresh)
    = Ok tt /\
  exists t1 t2,
    calls (planar_loop_builder (fake no_fault) square 0.5%float 0.25%float fresh)
      = t1 ++ AddCurveLoop (map c_tag (curves t1)) 1 :: t2 /\
    curves t2 = [] /\ curve_loops t1 = [] /\ curve_loops t2 = [] /\
    length (curves t1) = length square /\
    map c_tag (curves t1) = range 1 (len square + 1) /\
    forall d, c_start (hd d (curves t1)) = 1 /\
              c_end (last (curves t1) d) = c_start (hd d (curves t1)).
Proof.
  assert (Hne : square <> []) by discriminate.
  pose proof (loop_closed (fake no_fault) square 0.5%float 0.25%float fresh Hne)
    as (Hret & Hshape).
  split.
  - apply Hret. exact fake_cooperative.
  - apply Hshape. reflexivity.
Defined.

(** ** The axial extruder *)

Lemma fold_max_app (l : list Z) (x : Z) :
  fold_right Z.max 0 (l ++ [x]) = Z.max (fold_right Z.max 0 l) (Z.max x 0).
Proof.
  induction l as [|y l IH]; cbn; [lia|]. rewrite IH. lia.
Qed.

Lemma fold_max_nonneg (l : list Z) : 0 <= fold_right Z.max 0 l.
Proof. induction l as [|y l IH]; cbn; lia. Qed.

Lemma next_tag_app (l : list Z) :
  next_tag (l ++ [next_tag l]) = next_tag l + 1.
Proof.
  unfold next_tag. rewrite fold_max_app.
  pose proof (fold_max_nonneg l). lia.
Qed.

Section Extruder.

Variable B : backend.

Lemma extrude_loop_Ok L Nlayer surf_list : forall u s u' s' t,
  for_each surf_list (extrude_body B L Nlayer) u s = (Ok u', s', t) ->
  t = map (fun surf => Extrude [(2, surf)] (of_int 0) (of_int 0) L [Nlayer])
          surf_list.
Proof.
  induction surf_list as [|x l IH]; intros u s u' s' t H; cbn [for_each] in H.
  - now apply ret_Ok in H as (_ & _ & ->).
  - apply bind_Ok in H as (v & s1 & t1 & t2 & H1 & H2 & ->).
    unfold extrude_body in H1. apply step_Ok in H1 as (? & ? & H1 & ->).
    apply ret_Ok in H1 as (_ & _ & ->). apply IH in H2 as ->. reflexivity.
Qed.

Lemma extrude_all_returns surf_list L Nlayer :
  cooperative B -> returns B (extrude_all B surf_list L Nlayer).
Proof.
  intros HB. unfold extrude_all, extrude_body. returns_tac HB.
Qed.

End Extruder.

(** On the recording kernel every surface gets the next volume handle. *)
Lemma fake_extrude_loop L Nlayer surf_list : forall u reg,
  let r := for_each surf_list (extrude_body (fake no_fault) L Nlayer) u reg in
  let n := next_tag (map fst (volumes reg)) in
  outcome r = Ok tt /\
  volumes (final r)
    = volumes reg ++ combine (range n (n + len surf_list)) surf_list.
Proof.
  induction surf_list as [|x l IH]; intros [] reg; cbn zeta.
  - cbn. rewrite range_nil by (unfold len; cbn; lia). cbn.
    now rewrite app_nil_r.
  - cbn [for_each]. unfold bind.
    set (n := next_tag (map fst (volumes reg))).
    set (reg' := Registry (surfaces reg) (volumes reg ++ [(n, x)])
                : bstate (fake no_fault)).
    change (extrude_body (fake no_fault) L Nlayer x tt reg)
      with (Ok tt, reg', [Extrude [(2, x)] (of_int 0) (of_int 0) L [Nlayer]]).
    specialize (IH tt reg'). cbn zeta in IH. destruct IH as [IH1 IH2].
    destruct (for_each l (extrude_body (fake no_fault) L Nlayer) tt reg')
      as [[r s2] t2].
    unfold outcome, final in *. cbn [fst snd] in *.
    split; [exact IH1|]. rewrite IH2. subst reg'. cbn [volumes].
    rewrite map_app. cbn [map fst]. subst n. rewrite next_tag_app.
    rewrite <- app_assoc. f_equal. rewrite len_cons.
    rewrite (range_cons (next_tag _)) by (pose proof (len_nonneg l); lia).
    cbn [combine app]. do 3 f_equal. lia.
Qed.

(** C7.  Whatever the layer count and the list of surfaces: over a kernel
    that raises on no call the extruder returns, and an extruder run that
    returns has called [extrude] exactly once per surface, in the order of
    the list, each time on that one surface with displacement (0, 0, L) and
    [numElements = [Nlayer]].  On the recording kernel each of these calls
    makes one volume, so the new volumes pair with the surfaces one to one
    and in the same order. *)
Theorem extruder_once_per_surface (B : backend) (surf_list : list Z)
    (L : pyfloat) (Nlayer : Z) :
  (cooperative B ->
   forall s : bstate B, outcome (extrude_all B surf_list L Nlayer s) = Ok tt) /\
  (forall s : bstate B,
     outcome (extrude_all B surf_list L Nlayer s) = Ok tt ->
     calls (extrude_all B surf_list L Nlayer s)
       = map (fun surf => Extrude [(2, surf)] (of_int 0) (of_int 0) L [Nlayer])
             surf_list) /\
  (forall reg : registry,
     let r := extrude_all (fake no_fault) surf_list L Nlayer reg in
     let n := next_tag (map fst (volumes reg)) in
     volumes (final r)
       = volumes reg ++ combine (range n (n + len surf_list)) surf_list).
Proof.
  repeat split.
  - intros HB s.
    destruct (extrude_all_returns B surf_list L Nlayer HB s) as ([] & H).
    exact H.
  - intros s Hok. unfold extrude_all in *.
    destruct (for_each surf_list _ tt s) as [[r s'] t] eqn:Hrun.
    cbn in Hok. subst r. now apply extrude_loop_Ok in Hrun.
  - intros reg. apply fake_extrude_loop.
Qed.

Lemma extruder_once_per_surface_witness :
  calls (extrude_all (fake no_fault) [1; 2; 3] 0.5%float 2 fresh)
    = map (fun surf => Extrude [(2, surf)] 0%float 0%float 0.5%float [2])
          [1; 2; 3] /\
  volumes (final (extrude_all (fake no_fault) [1; 2; 3] 0.5%float 2 fresh))
    = [(1, 1); (2, 2); (3, 3)].
Proof.
  pose proof (extruder_once_per_surface (fake no_fault) [1; 2; 3] 0.5%float 2)
    as (Hret & Hcalls & Hvol).
  split.
  - apply (Hcalls fresh). apply (Hret fake_cooperative).
  - apply (Hvol fresh).
Defined.

(** ** The reads made before the kernel is started *)

(** C10.  When [get_surface_tooth()], [L1] or [Zs] raises, that exception
    leaves the function with no kernel call made and the kernel state
    untouched: there is no session to tear down.  When the three reads
    succeed, the first kernel call is [initialize]. *)
Theorem reads_precede_session (B : backend) (lam : LamSlot) (save_path : string)
    (mesh_size : pyfloat) (Nlayer : Z) (argv : list string) (s : bstate B) :
  match failed_read lam with
  | Some e =>
      gen_3D_mesh B lam save_path mesh_size Nlayer argv s = (Raise e, s, [])
  | None =>
      hd_error (calls (gen_3D_mesh B lam save_path mesh_size Nlayer argv s))
        = Some (Initialize argv)
  end.
Proof.
  unfold failed_read, gen_3D_mesh.
  destruct (get_surface_tooth lam) as [tooth|e]; [|reflexivity].
  destruct (L1 lam) as [L|e]; [|reflexivity].
  destruct (Zs lam) as [zs|e]; [|reflexivity].
  cbn [read]. unfold bind at 1 2 3, ret.
  rewrite (surjective_pairing (build B _ _ _ _ _ _ _ _ _)).
  rewrite (surjective_pairing (fst (build B _ _ _ _ _ _ _ _ _))).
  cbn [calls snd app].
  unfold build, start_model. apply bind_head, bind_head. reflexivity.
Qed.

(** ** Two runs *)

Section Determinism.

Variable B : backend.

Lemma build_from_any_state tooth L zs stator save_path mesh_size Nlayer argv s1 s2 :
  initialize_resets B ->
  build B tooth L zs stator save_path mesh_size Nlayer argv s1
  = build B tooth L zs stator save_path mesh_size Nlayer argv s2.
Proof.
  intros Hreset. unfold build, start_model.
  unfold bind at 1 2. symmetry. unfold bind at 1 2. symmetry.
  unfold invoke at 1 5. now rewrite (Hreset s1 s2).
Qed.

End Determinism.

(** C9.  Over a kernel whose [initialize] opens a fresh registry, two runs on
    the same arguments make the same calls, in the same order, and end the
    same way, whatever state each one finds the kernel in (so also when the
    second run follows the first); hence the same physical groups with the
    same members and names, and the same handles throughout.  Once the
    three reads succeed the runs also leave the kernel in the same state. *)
Theorem runs_repeat (B : backend) (lam : LamSlot) (save_path : string)
    (mesh_size : pyfloat) (Nlayer : Z) (argv : list string) (s1 s2 : bstate B) :
  initialize_resets B ->
  let r1 := gen_3D_mesh B lam save_path mesh_size Nlayer argv s1 in
  let r2 := gen_3D_mesh B lam save_path mesh_size Nlayer argv s2 in
  outcome r1 = outcome r2 /\
  calls r1 = calls r2 /\
  (forall dim id, group_tags dim id (calls r1) = group_tags dim id (calls r2) /\
                  group_names dim id (calls r1) = group_names dim id (calls r2)) /\
  (failed_read lam = None -> final r1 = final r2).
Proof.
  intros Hreset. cbn zeta. unfold failed_read, gen_3D_mesh.
  destruct (get_surface_tooth lam) as [tooth|e];
    [|repeat split; intros; discriminate].
  destruct (L1 lam) as [L|e]; [|repeat split; intros; discriminate].
  destruct (Zs lam) as [zs|e]; [|repeat split; intros; discriminate].
  cbn [read]. unfold bind, ret.
  rewrite (build_from_any_state B tooth L zs (is_stator lam) save_path
             mesh_size Nlayer argv s1 s2 Hreset).
  destruct (build B tooth L zs (is_stator lam) save_path mesh_size Nlayer argv s2)
    as [[r s'] t].
  repeat split.
Qed.

Lemma runs_repeat_witness :
  let first := run_fake no_fault (lam_of square 6) in
  let second :=
    gen_3D_mesh (fake no_fault) (lam_of square 6) "Lamination.msh"
                0.25%float 2 [] (final first) in
  outcome first = outcome second /\
  calls first = calls second /\
  (forall dim id,
     group_tags dim id (calls first) = group_tags dim id (calls second) /\
     group_names dim id (calls first) = group_names dim id (calls second)) /\
  (failed_read (lam_of square 6) = None -> final first = final second).
Proof.
  apply (runs_repeat (fake no_fault) (lam_of square 6) "Lamination.msh"
           0.25%float 2 [] fresh
           (final (run_fake no_fault (lam_of square 6)))).
  intros s s' argv. reflexivity.
Defined.

(** ** Release of the kernel *)



Section Release.

Variable B : backend.






End Release.



(** ** Segments of an unknown kind *)

Section Kinds.

Variable B : backend.

Lemma for_each_ext {A S} (l : list A) (b1 b2 : A -> S -> M B S) :
  (forall x acc s, b1 x acc s = b2 x acc s) ->
  forall acc s, for_each l b1 acc s = for_each l b2 acc s.
Proof.
  intros Hb. induction l as [|x l IH]; intros acc s; cbn [for_each];
    [reflexivity|].
  unfold bind. rewrite Hb. destruct (b2 x acc s) as [[[a|e] s1] t1];
    [|reflexivity].
  now rewrite IH.
Qed.

Lemma for_each_map {A A' S} (f : A' -> A) (l : list A') (body : A -> S -> M B S) :
  forall acc s,
    for_each (map f l) body acc s = for_each l (fun x => body (f x)) acc s.
Proof.
  induction l as [|x l IH]; intros acc s; cbn [for_each map]; [reflexivity|].
  unfold bind. destruct (body (f x) acc s) as [[[a|e] s1] t1]; [|reflexivity].
  now rewrite IH.
Qed.

Lemma len_map {A A'} (f : A' -> A) (l : list A') : len (map f l) = len l.
Proof. unfold len. now rewrite length_map. Qed.

Lemma planar_loop_builder_straighten tooth L mesh_size s :
  planar_loop_builder B (map as_segment tooth) L mesh_size s
  = planar_loop_builder B tooth L mesh_size s.
Proof.
  unfold planar_loop_builder, create_points, draw_lines, bind.
  rewrite for_each_map, len_map.
  rewrite (for_each_ext tooth _ (point_body B L mesh_size))
    by (intros [] ? ?; reflexivity).
  destruct (for_each tooth _ 0 s) as [[[NPoint|e] s1] t1]; [|reflexivity].
  rewrite for_each_map.
  rewrite (for_each_ext tooth _ (line_body B (len tooth) L mesh_size))
    by (intros [] [? ?] ?; reflexivity).
  reflexivity.
Qed.

End Kinds.

(** C4, as the code has it.  The function has no check of the segment kind
    and signals no error of its own for it: a segment that is neither a
    line nor an arc takes the branch of the lines, so the run makes the
    calls, meets the answers and ends exactly as it does on the boundary
    where that segment is a straight segment with the same end points. *)
Theorem unknown_kind_drawn_as_line (B : backend) (lam : LamSlot)
    (save_path : string) (mesh_size : pyfloat) (Nlayer : Z)
    (argv : list string) (s : bstate B) :
  gen_3D_mesh B lam save_path mesh_size Nlayer argv s
  = gen_3D_mesh B (straighten lam) save_path mesh_size Nlayer argv s.
Proof.
  unfold gen_3D_mesh, straighten. cbn [get_surface_tooth L1 Zs is_stator].
  destruct (get_surface_tooth lam) as [tooth|e]; [|reflexivity].
  cbn [read]. unfold bind at 1. symmetry. unfold bind at 1. symmetry.
  unfold ret.
  destruct (L1 lam) as [L|e]; [|reflexivity].
  destruct (Zs lam) as [zs|e]; [|reflexivity].
  cbn [read]. unfold bind at 1 2. symmetry. unfold bind at 1 2. symmetry.
  unfold ret, build.
  unfold bind at 1 2. symmetry. unfold bind at 1 2. symmetry.
  destruct (start_model B argv s) as [[[u|e] s1] t1]; [|reflexivity].
  now rewrite planar_loop_builder_straighten.
Qed.

(** C4 fails as stated: a boundary with a segment of an unknown kind is
    meshed to the end; its points and curves are created and nothing is
    raised. *)
Lemma unknown_kind_not_rejected :
  forallb is_line_or_arc odd_square = false /\
  outcome (run_fake no_fault (lam_of odd_square 1)) = Ok tt /\
  outcome (run_fake no_fault (lam_of odd_square 1)) <> Raise GeometryError /\
  existsb is_primitive (calls (run_fake no_fault (lam_of odd_square 1))) = true /\
  curves (calls (run_fake no_fault (lam_of odd_square 1)))
    = [Curve 1 2 1; Curve 2 3 2; Curve 3 4 3; Curve 4 1 4].
Proof. repeat split; try (vm_compute; reflexivity). vm_compute. discriminate. Qed.

(** ** The angular replicator *)

Section Replicator.

Variable B : backend.

(** One iteration that returns has made one copy, turned it once, and put
    one more surface at the end of the list. *)
Lemma copy_body_Ok L ii surf_list s sl s' t :
  copy_body B L ii surf_list s = (Ok sl, s', t) ->
  exists ov d tag,
    t = [ Copy [(2, 1)];
          Rotate ((d, tag) :: ov) (of_int 0) (of_int 0) (z0 L)
                 (of_int 0) (of_int 0) (of_int 1) (angle ii) ] /\
    sl = surf_list ++ [tag].
Proof.
  unfold copy_body. intros H.
  apply bind_Ok in H as (ov & s1 & t1 & t2 & H1 & H & ->).
  apply invoke_Ok in H1 as ->.
  apply step_Ok in H as (s2 & t3 & H & ->).
  destruct ov as [|[d tag] ov]; [discriminate|].
  apply ret_Ok in H as (-> & _ & ->). now exists ov, d, tag.
Qed.

Lemma copy_loop_Ok L l : forall surf_list s sl s' t,
  for_each l (copy_body B L) surf_list s = (Ok sl, s', t) ->
  length sl = (length surf_list + length l)%nat /\
  length (copies t) = length l /\
  map placement (rotations t)
    = map (fun ii => ((of_int 0, of_int 0, z0 L),
                      (of_int 0, of_int 0, of_int 1), angle ii)) l /\
  group_tags 2 2 t = [].
Proof.
  induction l as [|ii l IH]; intros surf_list s sl s' t H; cbn [for_each] in H.
  - apply ret_Ok in H as (-> & _ & ->). cbn. repeat split. lia.
  - apply bind_Ok in H as (sl1 & s1 & t1 & t2 & H1 & H2 & ->).
    apply copy_body_Ok in H1 as (ov & d & tag & -> & ->).
    apply IH in H2 as (Hlen & Hcopies & Hrot & Hgrp).
    rewrite length_app in Hlen. cbn [length] in Hlen |- *.
    unfold copies, rotations, group_tags in *.
    rewrite !flat_map_app, length_app, map_app, Hcopies, Hrot, Hgrp.
    repeat split. lia.
Qed.

(** A replicator run that returns has made one copy per value of [range(Zs)]
    and lists the original and every copy in the "Lamination" group. *)
Lemma copy_rotate_Ok L zs s sl s' t :
  copy_rotate B L zs s = (Ok sl, s', t) ->
  length sl = S (Z.to_nat zs) /\
  length (copies t) = Z.to_nat zs /\
  map placement (rotations t)
    = map (fun ii => ((of_int 0, of_int 0, z0 L),
                      (of_int 0, of_int 0, of_int 1), angle ii)) (range 0 zs) /\
  group_tags 2 2 t = [sl].
Proof.
  unfold copy_rotate. intros H.
  apply bind_Ok in H as (sl1 & s1 & t1 & t2 & H1 & H & ->).
  repeat (apply step_Ok in H as (? & ? & H & ->)).
  apply ret_Ok in H as (-> & _ & ->).
  apply copy_loop_Ok in H1 as (Hlen & Hcopies & Hrot & Hgrp).
  rewrite range_length, Z.sub_0_r in Hlen, Hcopies. cbn [length] in Hlen.
  unfold copies, rotations, group_tags in *.
  rewrite !flat_map_app, length_app, map_app, Hcopies, Hrot, Hgrp.
  cbn. rewrite app_nil_r. repeat split; lia.
Qed.

Lemma copy_body_returns L ii surf_list :
  cooperative B -> returns B (copy_body B L ii surf_list).
Proof.
  intros HB s. unfold copy_body, bind, invoke.
  destruct (HB s (Copy [(2, 1)])) as (ov & -> & Hlen).
  specialize (Hlen _ eq_refl). destruct ov as [|[d tag] ov]; [discriminate|].
  match goal with
  | |- context [bstep B ?s1 ?c] => destruct (HB s1 c) as (v & -> & _)
  end.
  now exists (surf_list ++ [tag]).
Qed.

Lemma copy_rotate_returns L zs :
  cooperative B -> returns B (copy_rotate B L zs).
Proof.
  intros HB. unfold copy_rotate.
  apply returns_bind; [|intros sl; returns_tac HB].
  apply returns_for_each. intros ii acc. now apply copy_body_returns.
Qed.

End Replicator.

(** ** The whole run *)

Lemma flat_map_map_nil {A X Y} (f : A -> list X) (g : Y -> A) (l : list Y) :
  (forall y, f (g y) = []) -> flat_map f (map g l) = [].
Proof.
  intros H. induction l as [|y l IH]; cbn; [reflexivity|]. now rewrite H, IH.
Qed.

Lemma flat_map_map_one {A X Y} (f : A -> list X) (g : Y -> A) (h : Y -> X)
    (l : list Y) :
  (forall y, f (g y) = [h y]) -> flat_map f (map g l) = map h l.
Proof.
  intros H. induction l as [|y l IH]; cbn; [reflexivity|]. now rewrite H, IH.
Qed.

Lemma late_nil t :
  Forall late t ->
  group_tags 2 2 t = [] /\ copies t = [] /\ rotations t = [] /\
  extrusions t = [] /\ group_tags 3 1 t = [] /\ group_names 3 1 t = [].
Proof.
  intros H. repeat split; apply flat_map_nil_Forall;
    (eapply Forall_impl; [|exact H]); unfold late; tauto.
Qed.

Section Whole.

Variable B : backend.

Lemma start_model_late argv : emits B late (start_model B argv).
Proof. unfold start_model. emits_tac; now repeat split. Qed.

Lemma planar_loop_builder_late tooth L mesh_size :
  emits B late (planar_loop_builder B tooth L mesh_size).
Proof.
  unfold planar_loop_builder, create_points, point_body, draw_lines,
    create_tooth_surface.
  apply emits_bind; [emits_tac; now repeat split|]. intros NPoint.
  apply emits_bind; [|intros st; emits_tac; now repeat split].
  apply emits_for_each. intros ln [np nl]. unfold line_body.
  destruct (nl + 1 =? len tooth); destruct ln; emits_tac; now repeat split.
Qed.

Lemma copy_rotate_quiet L zs :
  emits B (fun c => extrude_of c = [] /\ group_of 3 1 c = [] /\ name_of 3 1 c = [])
        (copy_rotate B L zs).
Proof.
  unfold copy_rotate, copy_body.
  apply emits_bind; [|intros sl; emits_tac; now repeat split].
  apply emits_for_each. intros ii acc.
  apply emits_bind; [emits_tac; now repeat split|]. intros ov.
  apply emits_bind; [emits_tac; now repeat split|]. intros _.
  destruct ov as [|[d t] ov]; emits_tac.
Qed.

Lemma tag_volumes_Ok zs stator s u s' t :
  tag_volumes B zs stator s = (Ok u, s', t) ->
  t = [ AddPhysicalGroup 3 (range 1 (zs + 1)) 1;
        SetPhysicalName 3 1 (if stator then "stator" else "rotor") ].
Proof.
  unfold tag_volumes. intros H.
  repeat (apply step_Ok in H as (? & ? & H & ->)).
  now apply ret_Ok in H as (_ & _ & ->).
Qed.

Lemma generate_and_save_Ok save_path s u s' t :
  generate_and_save B save_path s = (Ok u, s', t) ->
  t = [Synchronize; Generate 3; Write save_path; Finalize].
Proof.
  unfold generate_and_save. intros H.
  repeat (apply step_Ok in H as (? & ? & H & ->)).
  now apply ret_Ok in H as (_ & _ & ->).
Qed.

(** What the log of a run that returns shows of the replicator, the
    extruder and the tagger. *)
Lemma build_Ok tooth L zs stator save_path mesh_size Nlayer argv s u s' t :
  build B tooth L zs stator save_path mesh_size Nlayer argv s = (Ok u, s', t) ->
  exists surf_list,
    length surf_list = S (Z.to_nat zs) /\
    group_tags 2 2 t = [surf_list] /\
    length (copies t) = Z.to_nat zs /\
    map placement (rotations t)
      = map (fun ii => ((of_int 0, of_int 0, z0 L),
                        (of_int 0, of_int 0, of_int 1), angle ii)) (range 0 zs) /\
    extrusions t
      = map (fun surf => ([(2, surf)], (of_int 0, of_int 0, L), [Nlayer]))
            surf_list /\
    group_tags 3 1 t = [range 1 (zs + 1)] /\
    group_names 3 1 t = [if stator then "stator" else "rotor"].
Proof.
  unfold build. intros H.
  apply bind_Ok in H as (u1 & s1 & t1 & ? & H1 & H & ->).
  apply bind_Ok in H as (u2 & s2 & t2 & ? & H2 & H & ->).
  apply bind_Ok in H as (sl & s3 & t3 & ? & H3 & H & ->).
  apply bind_Ok in H as (u4 & s4 & t4 & ? & H4 & H & ->).
  apply bind_Ok in H as (u5 & s5 & t5 & t6 & H5 & H6 & ->).
  pose proof (start_model_late argv s) as E1. rewrite H1 in E1.
  apply late_nil in E1 as (A1 & B1 & C1 & D1 & F1 & G1).
  pose proof (planar_loop_builder_late tooth L mesh_size s1) as E2.
  rewrite H2 in E2. apply late_nil in E2 as (A2 & B2 & C2 & D2 & F2 & G2).
  pose proof (copy_rotate_quiet L zs s2) as E3. rewrite H3 in E3.
  cbn [calls snd] in E3.
  assert (D3 : extrusions t3 = []).
  { apply flat_map_nil_Forall. eapply Forall_impl; [|exact E3]. cbn. tauto. }
  assert (F3 : group_tags 3 1 t3 = []).
  { apply flat_map_nil_Forall. eapply Forall_impl; [|exact E3]. cbn. tauto. }
  assert (G3 : group_names 3 1 t3 = []).
  { apply flat_map_nil_Forall. eapply Forall_impl; [|exact E3]. cbn. tauto. }
  apply copy_rotate_Ok in H3 as (Hlen & B3 & C3 & A3).
  unfold extrude_all in H4. apply extrude_loop_Ok in H4 as ->.
  apply tag_volumes_Ok in H5 as ->. apply generate_and_save_Ok in H6 as ->.
  exists sl. cbn [calls snd] in *.
  unfold group_tags, copies, rotations, extrusions, group_names in *.
  rewrite !flat_map_app, A1, A2, A3, B1, B2, C1, C2, D1, D2, D3,
    F1, F2, F3, G1, G2, G3.
  rewrite (flat_map_map_nil (group_of 2 2) _ sl),
    (flat_map_map_nil copy_of _ sl), (flat_map_map_nil rotation_of _ sl),
    (flat_map_map_nil (group_of 3 1) _ sl),
    (flat_map_map_nil (name_of 3 1) _ sl) by reflexivity.
  rewrite (flat_map_map_one extrude_of _
             (fun surf => ([(2, surf)], (of_int 0, of_int 0, L), [Nlayer])) sl)
    by reflexivity.
  cbn -[of_int z0 angle range]. rewrite !app_nil_r, B3, C3.
  repeat split; try reflexivity; assumption.
Qed.

Lemma build_returns tooth L zs stator save_path mesh_size Nlayer argv :
  cooperative B ->
  returns B (build B tooth L zs stator save_path mesh_size Nlayer argv).
Proof.
  intros HB. unfold build.
  apply returns_bind; [unfold start_model; returns_tac HB|]. intros _.
  apply returns_bind; [now apply planar_loop_builder_returns|]. intros _.
  apply returns_bind; [now apply copy_rotate_returns|]. intros sl.
  apply returns_bind; [now apply extrude_all_returns|]. intros _.
  unfold tag_volumes, generate_and_save. returns_tac HB.
Qed.

(** Over a cooperative kernel, for every slot count: the run returns, the
    "Lamination" group holds [Zs + 1] surfaces, [Zs + 1] volumes are
    extruded, and the group of dimension 3 lists [Zs] handles. *)
Lemma one_surface_more_than_tagged tooth L zs stator save_path mesh_size Nlayer
    argv s :
  cooperative B -> 0 <= zs ->
  let r := build B tooth L zs stator save_path mesh_size Nlayer argv s in
  outcome r = Ok tt /\
  exists surf_list tagged,
    group_tags 2 2 (calls r) = [surf_list] /\
    len surf_list = zs + 1 /\
    len (copies (calls r)) = zs /\
    len (extrusions (calls r)) = zs + 1 /\
    group_tags 3 1 (calls r) = [tagged] /\
    len tagged = zs.
Proof.
  intros HB Hzs. cbn zeta.
  destruct (build_returns tooth L zs stator save_path mesh_size Nlayer argv HB s)
    as ([] & Hok).
  split; [exact Hok|].
  destruct (build B tooth L zs stator save_path mesh_size Nlayer argv s)
    as [[r s'] t] eqn:Hrun.
  cbn in Hok. subst r.
  apply build_Ok in Hrun as (sl & Hlen & Hg2 & Hcp & _ & Hex & Hg3 & _).
  exists sl, (range 1 (zs + 1)). cbn [calls snd]. unfold len.
  rewrite Hex, length_map, Hlen, Hcp, range_length.
  repeat split; try assumption; lia.
Qed.

End Whole.

(** ** Where the code departs from its description *)

(** The closing arc, whatever the kernel: the centre is registered under the
    new handle [NPoint + 1], and the arc is drawn around handle
    [NPoint + 1 - 1], the point registered just before it. *)
Lemma closing_arc_center (B : backend) nlines L mesh_size b e c NPoint NLine
    s st s' t :
  NLine + 1 = nlines ->
  line_body B nlines L mesh_size (Arc b e c) (NPoint, NLine) s = (Ok st, s', t) ->
  t = [ AddPoint (real c) (imag c) (z0 L) mesh_size (NPoint + 1);
        AddCircleArc nlines (NPoint + 1 - 1) 1 nlines ].
Proof.
  intros <-. unfold line_body. rewrite Z.eqb_refl. intros H.
  repeat (apply step_Ok in H as (? & ? & H & ->)).
  now apply ret_Ok in H as (_ & _ & ->).
Qed.

(** C1 at [Zs = 1].  One tooth is asked for; the loop runs once, so one
    rotated copy is made and the "Lamination" group holds two surfaces. *)
Theorem replicator_one_too_many :
  let r := run_fake no_fault (lam_of square 1) in
  outcome r = Ok tt /\
  copies (calls r) = [[(2, 1)]] /\
  group_tags 2 2 (calls r) = [[1; 2]] /\
  group_names 2 2 (calls r) = ["Lamination"].
Proof. vm_compute. repeat split. Qed.

(** C2 at [Zs = 6].  Every copy is turned about the z axis through
    (0, 0, -L/2), but by [(ii + 1) * 2 * pi / 36]: six copies ten degrees
    apart, each angle more than half a radian short of [i * (2 * pi / 6)]. *)
Theorem replicator_pitch_fixed :
  let r := run_fake no_fault (lam_of square 6) in
  outcome r = Ok tt /\
  map placement (rotations (calls r))
    = map (fun ii => ((of_int 0, of_int 0, z0 0.5%float),
                      (of_int 0, of_int 0, of_int 1),
                      PrimFloat.div (PrimFloat.mul (of_int ((ii + 1) * 2)) pi)
                                    (of_int 36)))
          [0; 1; 2; 3; 4; 5] /\
  forallb (fun i => PrimFloat.ltb (PrimFloat.add (angle (i - 1)) 0.5%float)
                                  (spec_angle 6 i))
          [1; 2; 3; 4; 5] = true.
Proof. vm_compute. repeat split. Qed.

(** C3 on two segments closed by an arc.  The three begin points take
    handles 1, 2, 3 and the centre of the arc takes handle 4, but the
    closing arc is drawn as (start 3, centre 3, end 1): its centre handle
    is the arc's own start point, not the centre just registered. *)
Theorem closing_arc_wrong_center :
  calls (planar_loop_builder (fake no_fault) wedge 0.5%float 0.25%float fresh)
  = [ AddPoint 0%float 0%float (z0 0.5%float) 0.25%float 1;
      AddPoint 1%float 0%float (z0 0.5%float) 0.25%float 2;
      AddPoint 0%float 1%float (z0 0.5%float) 0.25%float 3;
      AddLine 1 2 1;
      AddLine 2 3 2;
      AddPoint 0%float 0.5%float (z0 0.5%float) 0.25%float 4;
      AddCircleArc 3 3 1 3;
      AddCurveLoop [1; 2; 3] 1;
      AddPlaneSurface [1] 1;
      AddPhysicalGroup 2 [1] 1;
      SetPhysicalName 2 1 "Tooth" ].
Proof. vm_compute. reflexivity. Qed.

(** C8 at [Zs = 1].  Two surfaces are extruded into volumes 1 and 2; the
    group of dimension 3 and id 1 is named "stator" and lists
    [range(1, Zs + 1)], that is volume 1 alone. *)
Theorem tagger_misses_a_volume :
  let r := run_fake no_fault (lam_of square 1) in
  outcome r = Ok tt /\
  extrusions (calls r)
    = [ ([(2, 1)], (0%float, 0%float, 0.5%float), [2]);
        ([(2, 2)], (0%float, 0%float, 0.5%float), [2]) ] /\
  map fst (volumes (final r)) = [1; 2] /\
  group_tags 3 1 (calls r) = [[1]] /\
  group_names 3 1 (calls r) = ["stator"].
Proof. vm_compute. repeat split. Qed.

(** * Further properties of [gen_3D_mesh] *)

(** ** Scripts *)

Section Scripts.

Variable B : backend.

Lemma scripted_ret {A} (a : A) : scripted B (ret a) [] a.
Proof.
  intros s. split; [now exists []|]. cbn. intros a' [= <-]. now split.
Qed.

Lemma scripted_bind {A C} (m : M B A) (k : A -> M B C) t1 a t2 c :
  scripted B m t1 a -> scripted B (k a) t2 c ->
  scripted B (bind m k) (t1 ++ t2) c.
Proof.
  intros Hm Hk s. destruct (Hm s) as [[rest Hrest] Hok]. unfold bind.
  destruct (m s) as [[[a'|e] s1] t] eqn:Hrun; cbn [calls outcome fst snd] in *.
  - destruct (Hok a' eq_refl) as [-> ->].
    destruct (Hk s1) as [[rest2 Hrest2] Hok2].
    destruct (k a s1) as [[r s2] t'] eqn:Hrun2; cbn [calls outcome fst snd] in *.
    split.
    + exists rest2. now rewrite Hrest2, app_assoc.
    + intros c' Hc. destruct (Hok2 c' Hc) as [-> ->]. now split.
  - split; [|discriminate].
    exists (rest ++ t2). now rewrite Hrest, app_assoc.
Qed.

(** A call whose answer is dropped, then [k]. *)
Lemma scripted_step {A} (c : call) (k : M B A) t a :
  scripted B k t a -> scripted B (bind (invoke B c) (fun _ => k)) (c :: t) a.
Proof.
  intros Hk s. unfold bind, invoke.
  destruct (snd (bstep B s c)) as [ov|e]; cbn [calls outcome fst snd].
  - destruct (Hk (fst (bstep B s c))) as [[rest Hrest] Hok].
    destruct (k (fst (bstep B s c))) as [[r s2] t'];
      cbn [calls outcome fst snd app] in *.
    split.
    + exists rest. now rewrite Hrest.
    + intros a' Ha. destruct (Hok a' Ha) as [-> ->]. now split.
  - split; [|discriminate]. now exists t.
Qed.

Lemma scripted_for_each {A S} (body : A -> S -> M B S)
    (f : A -> S -> list call) (g : A -> S -> S) (l : list A) :
  (forall x acc, scripted B (body x acc) (f x acc) (g x acc)) ->
  forall acc,
    scripted B (for_each l body acc) (loop_script f g l acc) (loop_state g l acc).
Proof.
  intros Hb. induction l as [|x l IH]; intros acc; cbn [for_each loop_script].
  - apply scripted_ret.
  - eapply scripted_bind; [apply Hb|]. apply IH.
Qed.

Lemma point_body_scripted L mesh_size ln NPoint :
  scripted B (point_body B L mesh_size ln NPoint)
           (point_calls L mesh_size ln NPoint) (NPoint + 1).
Proof.
  unfold point_body, point_calls. apply scripted_step, scripted_ret.
Qed.

Lemma line_body_scripted nlines L mesh_size ln st :
  scripted B (line_body B nlines L mesh_size ln st)
           (line_calls nlines L mesh_size ln st) (line_next ln st).
Proof.
  destruct st as [NPoint NLine]. unfold line_body, line_calls, line_next.
  cbn [fst snd]. destruct (NLine + 1 =? nlines); destruct ln; cbn [is_Arc];
    repeat apply scripted_step; apply scripted_ret.
Qed.

Lemma loop_state_count {A} (l : list A) (n : Z) :
  loop_state (fun (_ : A) n => n + 1) l n = n + len l.
Proof.
  unfold loop_state. revert n.
  induction l as [|x l IH]; intros n; cbn [fold_left].
  - unfold len. cbn. lia.
  - rewrite IH, len_cons. lia.
Qed.

Lemma centers_cons ln l : centers (ln :: l) = center_of ln ++ centers l.
Proof. reflexivity. Qed.

Lemma loop_state_lines l : forall NPoint NLine,
  loop_state line_next l (NPoint, NLine)
  = (NPoint + len (centers l), NLine + len l).
Proof.
  unfold loop_state.
  induction l as [|ln l IH]; intros NPoint NLine; cbn [fold_left].
  - unfold len. cbn. f_equal; lia.
  - unfold line_next at 2. cbn [fst snd].
    rewrite IH, len_cons, centers_cons. unfold len. rewrite length_app.
    destruct ln; cbn [is_Arc center_of length]; f_equal; lia.
Qed.

(** The planar loop builder follows [builder_script]. *)
Lemma planar_loop_builder_scripted lines L mesh_size :
  scripted B (planar_loop_builder B lines L mesh_size)
           (builder_script lines L mesh_size) tt.
Proof.
  unfold planar_loop_builder, builder_script, create_points, draw_lines.
  eapply scripted_bind.
  { apply scripted_for_each. intros ln n. apply point_body_scripted. }
  rewrite loop_state_count, Z.add_0_l.
  eapply scripted_bind.
  { apply scripted_for_each. intros ln st. apply line_body_scripted. }
  rewrite loop_state_lines. cbn [snd]. rewrite Z.add_0_l.
  unfold create_tooth_surface. repeat apply scripted_step. apply scripted_ret.
Qed.

End Scripts.

(** ** What the builder script holds *)

Lemma range_app (a b c : Z) : a <= b -> b <= c -> range a c = range a b ++ range b c.
Proof.
  intros Hab Hbc. remember (Z.to_nat (b - a)) as n eqn:Hn.
  revert a Hab Hn. induction n as [|n IH]; intros a Hab Hn.
  - assert (a = b) as -> by lia. now rewrite (range_nil b b) by lia.
  - rewrite (range_cons a c), (range_cons a b) by lia.
    cbn [app]. f_equal. apply IH; lia.
Qed.

Lemma combine_app {X Y} (l1 l2 : list X) (r1 r2 : list Y) :
  length l1 = length r1 ->
  combine (l1 ++ l2) (r1 ++ r2) = combine l1 r1 ++ combine l2 r2.
Proof.
  revert r1. induction l1 as [|x l1 IH]; intros [|y r1] H; try discriminate.
  - reflexivity.
  - cbn. f_equal. apply IH. now injection H.
Qed.

Section BuilderScript.

Variables (L mesh_size : pyfloat).

Lemma first_loop_points l : forall n0,
  points (loop_script (point_calls L mesh_size) (fun _ n => n + 1) l n0)
  = map (on_plane L mesh_size)
        (combine (map get_begin l) (range (n0 + 1) (n0 + 1 + len l))).
Proof.
  induction l as [|ln l IH]; intros n0; cbn [loop_script map].
  - reflexivity.
  - rewrite len_cons, range_cons by (pose proof (len_nonneg l); lia).
    unfold points in *. rewrite flat_map_app, IH.
    cbn [point_calls flat_map point_of app combine map].
    f_equal. do 3 f_equal. lia.
Qed.

Lemma first_loop_draws_nothing l : forall n0,
  curves (loop_script (point_calls L mesh_size) (fun _ n => n + 1) l n0) = [] /\
  curve_kinds (loop_script (point_calls L mesh_size) (fun _ n => n + 1) l n0) = [] /\
  arc_centres (loop_script (point_calls L mesh_size) (fun _ n => n + 1) l n0) = [].
Proof.
  induction l as [|ln l IH]; intros n0; cbn [loop_script]; [now repeat split|].
  destruct (IH (n0 + 1)) as (H1 & H2 & H3). cbn. now repeat split.
Qed.

Lemma second_loop_points nlines l : forall NPoint NLine,
  points (loop_script (line_calls nlines L mesh_size) line_next l (NPoint, NLine))
  = map (on_plane L mesh_size)
        (combine (centers l) (range (NPoint + 1) (NPoint + 1 + len (centers l)))).
Proof.
  induction l as [|ln l IH]; intros NPoint NLine; cbn [loop_script].
  - reflexivity.
  - unfold points in *. rewrite flat_map_app, centers_cons.
    change (line_next ln (NPoint, NLine))
      with (if is_Arc ln then NPoint + 1 else NPoint, NLine + 1).
    rewrite IH. unfold line_calls. cbn [fst snd].
    destruct ln; cbn [is_Arc center_of app];
      try (destruct (NLine + 1 =? nlines); reflexivity).
    rewrite len_cons.
    rewrite (range_cons (NPoint + 1)) by (pose proof (len_nonneg (centers l)); lia).
    destruct (NLine + 1 =? nlines);
      cbn [flat_map point_of app combine map]; f_equal; do 3 f_equal; lia.
Qed.

Lemma second_loop_kinds nlines l : forall st,
  curve_kinds (loop_script (line_calls nlines L mesh_size) line_next l st)
  = map is_Arc l.
Proof.
  induction l as [|ln l IH]; intros [NPoint NLine]; cbn [loop_script map].
  - reflexivity.
  - unfold curve_kinds in *. rewrite flat_map_app, IH.
    unfold line_calls. cbn [fst snd].
    destruct ln; destruct (NLine + 1 =? nlines); reflexivity.
Qed.

(** Curve [k] goes from point [k] to point [k mod n + 1]. *)
Lemma second_loop_curves nlines l : forall NPoint NLine,
  0 <= NLine -> NLine + len l = nlines ->
  curves (loop_script (line_calls nlines L mesh_size) line_next l (NPoint, NLine))
  = map (fun k => Curve k (k mod nlines + 1) k) (range (NLine + 1) (nlines + 1)).
Proof.
  induction l as [|ln l IH]; intros NPoint NLine Hnl Hlen; cbn [loop_script].
  - unfold len in Hlen. cbn in Hlen. now rewrite range_nil by lia.
  - rewrite len_cons in Hlen. pose proof (len_nonneg l) as Hl.
    rewrite range_cons by lia. cbn [map].
    unfold curves in *. rewrite flat_map_app.
    change (line_next ln (NPoint, NLine))
      with (if is_Arc ln then NPoint + 1 else NPoint, NLine + 1).
    rewrite IH by lia.
    assert (Hend : (if NLine + 1 =? nlines then 1 else NLine + 1 + 1)
                   = (NLine + 1) mod nlines + 1).
    { destruct (Z.eqb_spec (NLine + 1) nlines) as [->|Hne].
      - rewrite Z.mod_same by lia. reflexivity.
      - rewrite Z.mod_small by lia. reflexivity. }
    rewrite <- Hend. unfold line_calls. cbn [fst snd].
    destruct ln; destruct (NLine + 1 =? nlines); reflexivity.
Qed.

Lemma closes_centers l : closes_with_arc l = true -> 0 < len (centers l).
Proof.
  induction l as [|ln l IH]; [discriminate|].
  destruct l as [|ln' l'].
  - destruct ln; try discriminate. intros _. reflexivity.
  - intros H. change (closes_with_arc (ln' :: l') = true) in H.
    specialize (IH H). rewrite centers_cons. unfold len in *.
    rewrite length_app. lia.
Qed.

Lemma removelast_cons {X} (x : X) (r : list X) :
  r <> [] -> removelast (x :: r) = x :: removelast r.
Proof. destruct r; [congruence | reflexivity]. Qed.

(** The centre handles of the arcs: the handles of their own centres, but
    for a closing arc the handle before. *)
Lemma second_loop_arcs nlines l : forall NPoint NLine,
  NLine + len l = nlines ->
  map snd (arc_centres
             (loop_script (line_calls nlines L mesh_size) line_next l
                          (NPoint, NLine)))
  = if closes_with_arc l
    then removelast (range (NPoint + 1) (NPoint + 1 + len (centers l)))
         ++ [NPoint + len (centers l) - 1]
    else range (NPoint + 1) (NPoint + 1 + len (centers l)).
Proof.
  induction l as [|ln l IH]; intros NPoint NLine Hlen.
  - cbn. now rewrite range_nil by (unfold len; cbn; lia).
  - rewrite len_cons in Hlen. cbn [loop_script].
    unfold arc_centres in *. rewrite flat_map_app, map_app.
    change (line_next ln (NPoint, NLine))
      with (if is_Arc ln then NPoint + 1 else NPoint, NLine + 1).
    rewrite centers_cons. unfold line_calls. cbn [fst snd].
    destruct l as [|ln' l'].
    + unfold len in Hlen. cbn [length] in Hlen.
      replace (NLine + 1 =? nlines) with true by (symmetry; apply Z.eqb_eq; lia).
      destruct ln; cbn [is_Arc center_of closes_with_arc loop_script flat_map
                        arc_of app map snd centers];
        rewrite ?range_nil by (unfold len; cbn; lia); try reflexivity.
      unfold len. cbn [length].
      rewrite (range_cons (NPoint + 1)), range_nil by lia.
      cbn. f_equal; lia.
    + change (closes_with_arc (ln :: ln' :: l'))
        with (closes_with_arc (ln' :: l')).
      replace (NLine + 1 =? nlines) with false
        by (symmetry; apply Z.eqb_neq; rewrite len_cons in Hlen;
            pose proof (len_nonneg l'); lia).
      rewrite IH by lia. pose proof (len_nonneg (centers (ln' :: l'))) as Hk.
      destruct ln; cbn [is_Arc center_of flat_map arc_of app map snd];
        try reflexivity.
      rewrite len_cons.
      rewrite (range_cons (NPoint + 1)) by lia.
      replace (NPoint + 1 + (len (centers (ln' :: l')) + 1))
        with (NPoint + 1 + 1 + len (centers (ln' :: l'))) by lia.
      destruct (closes_with_arc (ln' :: l')) eqn:Hc; [|reflexivity].
      apply closes_centers in Hc.
      rewrite removelast_cons.
      * cbn [app]. do 3 f_equal. lia.
      * intros Hnil. apply (f_equal (@length Z)) in Hnil.
        rewrite range_length in Hnil. cbn [length] in Hnil. lia.
Qed.

End BuilderScript.

(** ** Points, curves and arcs of the tooth *)

Section BuilderFacts.

Variable B : backend.

Lemma planar_loop_builder_log lines L mesh_size (s : bstate B) :
  outcome (planar_loop_builder B lines L mesh_size s) = Ok tt ->
  calls (planar_loop_builder B lines L mesh_size s)
  = builder_script lines L mesh_size.
Proof.
  intros H.
  exact (proj2 (proj2 (planar_loop_builder_scripted B lines L mesh_size s) tt H)).
Qed.

End BuilderFacts.

Lemma builder_script_points lines L mesh_size :
  points (builder_script lines L mesh_size)
  = map (on_plane L mesh_size)
        (combine (map get_begin lines) (range 1 (1 + len lines)))
    ++ map (on_plane L mesh_size)
           (combine (centers lines)
                    (range (len lines + 1) (len lines + 1 + len (centers lines)))).
Proof.
  unfold builder_script, points. rewrite !flat_map_app.
  fold (points (loop_script (point_calls L mesh_size) (fun _ n => n + 1) lines 0)).
  fold (points (loop_script (line_calls (len lines) L mesh_size) line_next lines
                            (len lines, 0))).
  rewrite first_loop_points, second_loop_points. cbn [flat_map point_of app].
  now rewrite app_nil_r.
Qed.

Lemma builder_script_curves lines L mesh_size :
  curves (builder_script lines L mesh_size)
  = map (fun k => Curve k (k mod len lines + 1) k) (range 1 (len lines + 1)) /\
  curve_kinds (builder_script lines L mesh_size) = map is_Arc lines.
Proof.
  unfold builder_script, curves, curve_kinds. rewrite !flat_map_app.
  destruct (first_loop_draws_nothing L mesh_size lines 0) as (H1 & H2 & _).
  unfold curves, curve_kinds in H1, H2. rewrite H1, H2.
  fold (curves (loop_script (line_calls (len lines) L mesh_size) line_next lines
                            (len lines, 0))).
  fold (curve_kinds (loop_script (line_calls (len lines) L mesh_size) line_next
                                 lines (len lines, 0))).
  rewrite second_loop_kinds, (second_loop_curves L mesh_size (len lines) lines)
    by lia.
  cbn [flat_map curve_of kind_of app]. now rewrite !app_nil_r.
Qed.

Lemma builder_script_arcs lines L mesh_size :
  map snd (arc_centres (builder_script lines L mesh_size))
  = if closes_with_arc lines
    then removelast (range (len lines + 1) (len lines + 1 + len (centers lines)))
         ++ [len lines + len (centers lines) - 1]
    else range (len lines + 1) (len lines + 1 + len (centers lines)).
Proof.
  unfold builder_script, arc_centres. rewrite !flat_map_app.
  destruct (first_loop_draws_nothing L mesh_size lines 0) as (_ & _ & H3).
  unfold arc_centres in H3. rewrite H3.
  fold (arc_centres (loop_script (line_calls (len lines) L mesh_size) line_next
                                 lines (len lines, 0))).
  cbn [flat_map arc_of app]. rewrite app_nil_r.
  now rewrite (second_loop_arcs L mesh_size (len lines) lines) by lia.
Qed.

Lemma skipn_exact {X} (l1 l2 : list X) (n : nat) :
  length l1 = n -> skipn n (l1 ++ l2) = l2.
Proof.
  intros <-. induction l1 as [|x l1 IH]; [reflexivity | exact IH].
Qed.

Lemma begin_points_length lines L mesh_size :
  length (map (on_plane L mesh_size)
              (combine (map get_begin lines) (range 1 (1 + len lines))))
  = length lines.
Proof.
  rewrite length_map, length_combine, length_map, range_length.
  unfold len. lia.
Qed.

(** X1.  A builder run that returns has registered, in this order, the begin
    point of every segment under the handles 1 .. n and then the centre of
    every arc under the handles n + 1 .. n + k, each at
    (real, imag, -L / 2) with the given mesh size. *)
Theorem points_registered (B : backend) (lines : list line)
    (L mesh_size : pyfloat) (s : bstate B) :
  outcome (planar_loop_builder B lines L mesh_size s) = Ok tt ->
  points (calls (planar_loop_builder B lines L mesh_size s))
  = map (on_plane L mesh_size)
        (combine (map get_begin lines) (range 1 (1 + len lines)))
    ++ map (on_plane L mesh_size)
           (combine (centers lines)
                    (range (len lines + 1) (len lines + 1 + len (centers lines)))).
Proof.
  intros H. rewrite (planar_loop_builder_log B lines L mesh_size s H).
  apply builder_script_points.
Qed.

Lemma points_registered_witness :
  points (calls (planar_loop_builder (fake no_fault) wedge 0.5%float 0.25%float
                                     fresh))
  = map (on_plane 0.5%float 0.25%float)
        (combine (map get_begin wedge) (range 1 (1 + len wedge)))
    ++ map (on_plane 0.5%float 0.25%float)
           (combine (centers wedge)
                    (range (len wedge + 1) (len wedge + 1 + len (centers wedge)))).
Proof.
  apply (points_registered (fake no_fault) wedge 0.5%float 0.25%float fresh).
  reflexivity.
Defined.

(** X2.  A builder run that returns has drawn, for k = 1 .. n, curve k from
    point handle k to point handle (k mod n) + 1, so that each curve ends
    where the next one starts and the last one ends where the first starts;
    curve k is a circular arc exactly when segment k is an arc, and a straight
    line otherwise. *)
Theorem curves_chain (B : backend) (lines : list line)
    (L mesh_size : pyfloat) (s : bstate B) :
  outcome (planar_loop_builder B lines L mesh_size s) = Ok tt ->
  curves (calls (planar_loop_builder B lines L mesh_size s))
  = map (fun k => Curve k (k mod len lines + 1) k) (range 1 (len lines + 1)) /\
  curve_kinds (calls (planar_loop_builder B lines L mesh_size s))
  = map is_Arc lines.
Proof.
  intros H. rewrite (planar_loop_builder_log B lines L mesh_size s H).
  apply builder_script_curves.
Qed.

Lemma curves_chain_witness :
  curves (calls (planar_loop_builder (fake no_fault) wedge 0.5%float 0.25%float
                                     fresh))
  = map (fun k => Curve k (k mod len wedge + 1) k) (range 1 (len wedge + 1)) /\
  curve_kinds (calls (planar_loop_builder (fake no_fault) wedge 0.5%float
                                          0.25%float fresh))
  = map is_Arc wedge.
Proof.
  apply (curves_chain (fake no_fault) wedge 0.5%float 0.25%float fresh).
  reflexivity.
Defined.

(** X3.  In a builder run that returns, the points registered after the n
    begin points are the centres of the arcs, under the handles
    n + 1 .. n + k, and the arcs are drawn, in order, around these same
    handles: each arc around the handle of its own centre.  The one
    exception is an arc that is the last segment, which is drawn around
    handle n + k - 1. *)
Theorem arcs_round_own_centres (B : backend) (lines : list line)
    (L mesh_size : pyfloat) (s : bstate B) :
  outcome (planar_loop_builder B lines L mesh_size s) = Ok tt ->
  let t := calls (planar_loop_builder B lines L mesh_size s) in
  let handles := range (len lines + 1) (len lines + 1 + len (centers lines)) in
  skipn (length lines) (points t)
  = map (on_plane L mesh_size) (combine (centers lines) handles) /\
  map snd (arc_centres t)
  = if closes_with_arc lines
    then removelast handles ++ [len lines + len (centers lines) - 1]
    else handles.
Proof.
  intros H. cbn zeta. rewrite (planar_loop_builder_log B lines L mesh_size s H).
  split.
  - rewrite builder_script_points.
    apply skipn_exact, begin_points_length.
  - apply builder_script_arcs.
Qed.

Lemma arcs_round_own_centres_witness :
  let lines := [ Arc (pt 0 0) (pt 1 0) (pt 0.5 0); Segment (pt 1 0) (pt 0 1);
                 Arc (pt 0 1) (pt 0 0) (pt 0 0.5) ]%float in
  let t := calls (planar_loop_builder (fake no_fault) lines 0.5%float 0.25%float
                                      fresh) in
  let handles := range (len lines + 1) (len lines + 1 + len (centers lines)) in
  skipn (length lines) (points t)
  = map (on_plane 0.5%float 0.25%float) (combine (centers lines) handles) /\
  map snd (arc_centres t)
  = if closes_with_arc lines
    then removelast handles ++ [len lines + len (centers lines) - 1]
    else handles.
Proof.
  apply (arcs_round_own_centres (fake no_fault)
           [ Arc (pt 0 0) (pt 1 0) (pt 0.5 0); Segment (pt 1 0) (pt 0 1);
             Arc (pt 0 1) (pt 0 0) (pt 0 0.5) ]%float
           0.5%float 0.25%float fresh).
  reflexivity.
Defined.

(** X4.  The calls of the planar loop builder are fixed by the boundary, [L]
    and the mesh size; the answers of the kernel only decide how far it
    gets.  Over any two kernels, in any states: the log of any run is an
    initial part of the log of a run that returns, and the whole of it when
    it returns too. *)
Theorem builder_calls_fixed (B1 B2 : backend) (lines : list line)
    (L mesh_size : pyfloat) (s1 : bstate B1) (s2 : bstate B2) :
  outcome (planar_loop_builder B2 lines L mesh_size s2) = Ok tt ->
  exists rest,
    calls (planar_loop_builder B2 lines L mesh_size s2)
    = calls (planar_loop_builder B1 lines L mesh_size s1) ++ rest /\
    (outcome (planar_loop_builder B1 lines L mesh_size s1) = Ok tt -> rest = []).
Proof.
  intros H2. rewrite (planar_loop_builder_log B2 lines L mesh_size s2 H2).
  destruct (planar_loop_builder_scripted B1 lines L mesh_size s1)
    as [[rest Hrest] Hok].
  exists rest. split; [exact Hrest|].
  intros H1. destruct (Hok tt H1) as [_ Heq]. rewrite Heq in Hrest.
  rewrite <- (app_nil_r (builder_script lines L mesh_size)) in Hrest at 1.
  apply app_inv_head in Hrest. now symmetry.
Qed.

Lemma builder_calls_fixed_witness :
  exists rest,
    calls (planar_loop_builder (fake no_fault) wedge 0.5%float 0.25%float fresh)
    = calls (planar_loop_builder (fake arcs_fail) wedge 0.5%float 0.25%float fresh)
      ++ rest /\
    (outcome (planar_loop_builder (fake arcs_fail) wedge 0.5%float 0.25%float
                                  fresh) = Ok tt -> rest = []).
Proof.
  apply (builder_calls_fixed (fake arcs_fail) (fake no_fault) wedge
           0.5%float 0.25%float fresh fresh).
  reflexivity.
Defined.

(** ** How a run can end *)

Section Exits.

Variable B : backend.

Lemma after_app (s : bstate B) t1 t2 :
  after B s (t1 ++ t2) = after B (after B s t1) t2.
Proof.
  revert s. induction t1 as [|c t1 IH]; intros s; [reflexivity|]. apply IH.
Qed.

Lemma replies_app (s : bstate B) t1 t2 :
  replies B s (t1 ++ t2) = replies B s t1 ++ replies B (after B s t1) t2.
Proof.
  revert s. induction t1 as [|c t1 IH]; intros s; [reflexivity|].
  cbn. now rewrite IH.
Qed.

Lemma all_returned_app (s : bstate B) t1 t2 :
  all_returned B s (t1 ++ t2)
  = all_returned B s t1 && all_returned B (after B s t1) t2.
Proof. unfold all_returned. now rewrite replies_app, forallb_app. Qed.

Lemma all_returned_removelast (s : bstate B) t :
  all_returned B s t = true -> all_returned B s (removelast t) = true.
Proof.
  destruct t as [|c0 t0]; [trivial|].
  destruct (@exists_last _ (c0 :: t0)) as (t' & c & ->); [discriminate|].
  rewrite removelast_last, all_returned_app. intros H.
  now apply andb_true_iff in H.
Qed.

Lemma last_app_nonempty {X} (l1 l2 : list X) d :
  l2 <> [] -> last (l1 ++ l2) d = last l2 d.
Proof.
  intros H. induction l1 as [|x l1 IH]; [reflexivity|].
  cbn [app]. destruct (l1 ++ l2) eqn:E.
  - apply app_eq_nil in E as [_ ->]. congruence.
  - rewrite <- IH. reflexivity.
Qed.

Lemma replies_nil (s : bstate B) t : replies B s t = [] -> t = [].
Proof. destruct t; [reflexivity | discriminate]. Qed.

Lemma clean_ret {A} own (a : A) s : clean_exit B own s (ret a s).
Proof. now repeat split. Qed.

Lemma clean_invoke own c s : clean_exit B own s (invoke B c s).
Proof.
  unfold clean_exit, invoke, all_returned. cbn.
  repeat split. destruct (snd (bstep B s c)); cbn; [reflexivity | now left].
Qed.

Lemma clean_bind {A C} own (m : M B A) (k : A -> M B C) :
  (forall e t1 t2, own e t2 -> own e (t1 ++ t2)) ->
  (forall s, clean_exit B own s (m s)) ->
  (forall a s, clean_exit B own s (k a s)) ->
  forall s, clean_exit B own s (bind m k s).
Proof.
  intros Hown Hm Hk s. specialize (Hm s). unfold bind.
  destruct (m s) as [[[a|e] s1] t1]; [|exact Hm].
  destruct Hm as (H1 & H2 & H3). cbn [final outcome calls fst snd] in H1, H2, H3.
  specialize (Hk a s1). destruct (k a s1) as [[r s2] t2].
  destruct Hk as (K1 & K2 & K3). cbn [final outcome calls fst snd] in K1, K2, K3.
  unfold clean_exit. cbn [final outcome calls fst snd]. subst s1.
  repeat split.
  - now rewrite after_app.
  - destruct t2 as [|c t2].
    + rewrite app_nil_r. exact H2.
    + rewrite removelast_app by discriminate.
      now rewrite all_returned_app, H3, K2.
  - destruct r as [c|e].
    + now rewrite all_returned_app, H3, K3.
    + destruct K3 as [K3 | [K3 K4]].
      * left. rewrite replies_app. rewrite last_app_nonempty; [exact K3|].
        intros Hnil. rewrite Hnil in K3. discriminate.
      * right. split; [now rewrite all_returned_app, H3, K3 | now apply Hown].
Qed.

Lemma clean_for_each {A S} own (l : list A) (body : A -> S -> M B S) :
  (forall e t1 t2, own e t2 -> own e (t1 ++ t2)) ->
  (forall x acc s, clean_exit B own s (body x acc s)) ->
  forall acc s, clean_exit B own s (for_each l body acc s).
Proof.
  intros Hown Hb. induction l as [|x l IH]; intros acc s; cbn [for_each].
  - apply clean_ret.
  - apply clean_bind; [exact Hown | intros; apply Hb | intros; apply IH].
Qed.

Lemma own_error_app e t1 t2 : own_error e t2 -> own_error e (t1 ++ t2).
Proof.
  intros (He & t0 & x & y & z & ax & ay & az & a & ->). split; [exact He|].
  exists (t1 ++ t0), x, y, z, ax, ay, az, a. now rewrite app_assoc.
Qed.

Lemma clean_copy_body L ii surf_list s :
  clean_exit B own_error s (copy_body B L ii surf_list s).
Proof.
  unfold clean_exit, copy_body, bind, invoke, all_returned.
  destruct (snd (bstep B s (Copy [(2, 1)]))) as [ov|e] eqn:Hc.
  - match goal with
    | |- context [bstep B ?s1 (Rotate ?a ?b ?c ?d ?e ?f ?g ?h)] =>
        destruct (snd (bstep B s1 (Rotate a b c d e f g h))) as [v|e'] eqn:Hr
    end.
    + destruct ov as [|[d tag] ov]; cbn -[of_int z0 angle];
        rewrite Hc, ?Hr; cbn -[of_int z0 angle]; (split; [reflexivity|]);
        (split; [reflexivity|]); [|reflexivity].
      right. split; [reflexivity|]. split; [reflexivity|].
      exists [], (of_int 0), (of_int 0), (z0 L), (of_int 0), (of_int 0),
        (of_int 1), (angle ii). reflexivity.
    + cbn -[of_int z0 angle]. rewrite Hc, Hr. cbn. repeat split. now left.
  - cbn. rewrite Hc. cbn. repeat split. now left.
Qed.

End Exits.

Ltac own_tac := first [exact own_error_app | intros ? ? ? []].

Ltac clean_tac :=
  repeat first
    [ apply clean_copy_body
    | apply clean_ret
    | apply clean_invoke
    | apply clean_for_each; [own_tac | intros ? ? ?]
    | apply clean_bind; [own_tac | intros ? | intros ? ?] ].

Section ExitsOfRun.

Variable B : backend.

Lemma clean_line_body nlines L mesh_size ln st s :
  clean_exit B own_error s (line_body B nlines L mesh_size ln st s).
Proof.
  destruct st as [NPoint NLine]. unfold line_body.
  destruct (NLine + 1 =? nlines); destruct ln; clean_tac.
Qed.

Lemma clean_build tooth L zs stator save_path mesh_size Nlayer argv s :
  clean_exit B own_error s
    (build B tooth L zs stator save_path mesh_size Nlayer argv s).
Proof.
  unfold build, start_model, planar_loop_builder, create_points, point_body,
    draw_lines, create_tooth_surface, copy_rotate, extrude_all, extrude_body,
    tag_volumes, generate_and_save.
  revert s.
  apply clean_bind; [exact own_error_app | intros s; clean_tac | intros _ s].
  revert s.
  apply clean_bind; [exact own_error_app | intros s | intros _ s].
  { revert s. apply clean_bind; [exact own_error_app | intros s; clean_tac|].
    intros NPoint. apply clean_bind; [exact own_error_app | | intros st s0; clean_tac].
    apply clean_for_each; [exact own_error_app|]. intros; apply clean_line_body. }
  revert s.
  apply clean_bind; [exact own_error_app | intros s; clean_tac | intros sl s].
  clean_tac.
Qed.

(** Once the three reads have succeeded the function is [build]. *)
Lemma gen_as_build lam tooth L zs save_path mesh_size Nlayer argv s :
  get_surface_tooth lam = Ok tooth -> L1 lam = Ok L -> Zs lam = Ok zs ->
  gen_3D_mesh B lam save_path mesh_size Nlayer argv s
  = build B tooth L zs (is_stator lam) save_path mesh_size Nlayer argv s.
Proof.
  intros Ht HL Hz. unfold gen_3D_mesh. rewrite Ht, HL, Hz. cbn [read].
  unfold bind at 1 2 3, ret.
  destruct (build B tooth L zs (is_stator lam) save_path mesh_size Nlayer argv s)
    as [[r s'] t].
  reflexivity.
Qed.

(** The same for the whole function, whose reads may raise as well. *)
Lemma clean_gen_3D_mesh lam save_path mesh_size Nlayer argv s :
  let r := gen_3D_mesh B lam save_path mesh_size Nlayer argv s in
  final r = after B s (calls r) /\
  all_returned B s (removelast (calls r)) = true /\
  match outcome r with
  | Ok _ => all_returned B s (calls r) = true
  | Raise e =>
      (failed_read lam = Some e /\ calls r = []) \/
      last (replies B s (calls r)) (Ok []) = Raise e \/
      (all_returned B s (calls r) = true /\ own_error e (calls r))
  end.
Proof.
  cbn zeta. unfold failed_read.
  destruct (get_surface_tooth lam) as [tooth|e] eqn:Ht;
    [|unfold gen_3D_mesh; rewrite Ht; cbn; repeat split; now left].
  destruct (L1 lam) as [L|e] eqn:HL;
    [|unfold gen_3D_mesh; rewrite Ht, HL; cbn; repeat split; now left].
  destruct (Zs lam) as [zs|e] eqn:Hz;
    [|unfold gen_3D_mesh; rewrite Ht, HL, Hz; cbn; repeat split; now left].
  rewrite (gen_as_build lam tooth L zs save_path mesh_size Nlayer argv s Ht HL Hz).
  destruct (clean_build tooth L zs (is_stator lam) save_path mesh_size Nlayer
              argv s) as (H1 & H2 & H3).
  repeat split; try assumption.
  destruct (outcome (build B tooth L zs (is_stator lam) save_path mesh_size
                           Nlayer argv s)) as [u|e];
    [exact H3 | right; exact H3].
Qed.

End ExitsOfRun.

(** X5.  Over any kernel: the kernel is left in the state that the logged
    calls, and no other, put it in; every call but the last was answered
    with a value, so nothing is called after a call that raised; a run that
    returns had all its calls answered; and an exception of the kernel is
    never swallowed or replaced: when some call raised, it is the last of
    the log and the function raises that very exception.  (Nothing is said
    of where an exception comes from when every call was answered.) *)
Theorem exit_paths (B : backend) (lam : LamSlot) (save_path : string)
    (mesh_size : pyfloat) (Nlayer : Z) (argv : list string) (s : bstate B) :
  let r := gen_3D_mesh B lam save_path mesh_size Nlayer argv s in
  final r = after B s (calls r) /\
  all_returned B s (removelast (calls r)) = true /\
  match outcome r with
  | Ok _ => all_returned B s (calls r) = true
  | Raise e =>
      all_returned B s (calls r) = true \/
      last (replies B s (calls r)) (Ok []) = Raise e
  end.
Proof.
  cbn zeta.
  destruct (clean_gen_3D_mesh B lam save_path mesh_size Nlayer argv s)
    as (H1 & H2 & H3).
  repeat split; try assumption.
  destruct (outcome (gen_3D_mesh B lam save_path mesh_size Nlayer argv s))
    as [u|e]; [exact H3|].
  destruct H3 as [[_ H] | [H | [H _]]].
  - left. now rewrite H.
  - now right.
  - now left.
Qed.

Lemma fake_obliging : obliging (fake no_fault).
Proof. intros s c. destruct c; reflexivity. Qed.


(** ** The log of a whole run *)

Lemma range_from_zero (zs : Z) : range 0 zs = range 0 (0 + Z.of_nat (Z.to_nat zs)).
Proof. unfold range. do 2 f_equal. lia. Qed.

Section WholeLog.

Variable B : backend.

Lemma start_model_scripted argv :
  scripted B (start_model B argv)
    [ Initialize argv; SetNumber "General.Terminal" (of_int 1);
      ModelAdd "Pyleecan" ] tt.
Proof. unfold start_model. repeat apply scripted_step. apply scripted_ret. Qed.

Lemma copy_loop_log L n : forall ii acc s sl s' t,
  for_each (range ii (ii + Z.of_nat n)) (copy_body B L) acc s = (Ok sl, s', t) ->
  exists ovs,
    length ovs = n /\ Forall (fun ov => ov <> []) ovs /\
    t = copy_script L ii ovs /\ sl = acc ++ map first_tag ovs.
Proof.
  induction n as [|n IH]; intros ii acc s sl s' t H.
  - rewrite range_nil in H by lia. apply ret_Ok in H as (-> & _ & ->).
    exists []. repeat split; [constructor | now rewrite app_nil_r].
  - rewrite range_cons in H by lia. cbn [for_each] in H.
    apply bind_Ok in H as (sl1 & s1 & t1 & t2 & H1 & H2 & ->).
    apply copy_body_Ok in H1 as (ov & d & tag & -> & ->).
    replace (ii + Z.of_nat (S n)) with (ii + 1 + Z.of_nat n) in H2 by lia.
    apply IH in H2 as (ovs & Hlen & Hne & -> & ->).
    exists (((d, tag) :: ov) :: ovs). repeat split.
    + cbn. now rewrite Hlen.
    + constructor; [discriminate | exact Hne].
    + now rewrite <- app_assoc.
Qed.

(** The log of a run that returns, given what [copy] answered. *)
Lemma build_log tooth L zs stator save_path mesh_size Nlayer argv s u s' t :
  build B tooth L zs stator save_path mesh_size Nlayer argv s = (Ok u, s', t) ->
  exists ovs,
    length ovs = Z.to_nat zs /\ Forall (fun ov => ov <> []) ovs /\
    t = run_script tooth L zs stator save_path mesh_size Nlayer argv ovs.
Proof.
  unfold build. intros H.
  apply bind_Ok in H as (u1 & s1 & t1 & ? & H1 & H & ->).
  apply bind_Ok in H as (u2 & s2 & t2 & ? & H2 & H & ->).
  apply bind_Ok in H as (sl & s3 & t3 & ? & H3 & H & ->).
  apply bind_Ok in H as (u4 & s4 & t4 & ? & H4 & H & ->).
  apply bind_Ok in H as (u5 & s5 & t5 & t6 & H5 & H6 & ->).
  pose proof (proj2 (start_model_scripted argv s) u1) as E1.
  rewrite H1 in E1. destruct (E1 eq_refl) as [_ Et1]. cbn in Et1. subst t1.
  pose proof (proj2 (planar_loop_builder_scripted B tooth L mesh_size s1) u2) as E2.
  rewrite H2 in E2. destruct (E2 eq_refl) as [_ Et2]. cbn in Et2. subst t2.
  unfold copy_rotate in H3.
  apply bind_Ok in H3 as (sl1 & s31 & t31 & t32 & H31 & H32 & ->).
  repeat (apply step_Ok in H32 as (? & ? & H32 & ->)).
  apply ret_Ok in H32 as (-> & _ & ->).
  rewrite range_from_zero in H31.
  apply copy_loop_log in H31 as (ovs & Hlen & Hne & -> & ->).
  unfold extrude_all in H4. apply extrude_loop_Ok in H4 as ->.
  apply tag_volumes_Ok in H5 as ->. apply generate_and_save_Ok in H6 as ->.
  exists ovs. repeat split; try assumption.
  unfold run_script. cbn [app]. now rewrite <- !app_assoc.
Qed.

End WholeLog.

Lemma loop_script_Forall {A S} (P : call -> Prop) (f : A -> S -> list call)
    (g : A -> S -> S) (l : list A) :
  (forall x acc, Forall P (f x acc)) ->
  forall acc, Forall P (loop_script f g l acc).
Proof.
  intros Hf. induction l as [|x l IH]; intros acc; cbn [loop_script].
  - constructor.
  - apply Forall_app. split; [apply Hf | apply IH].
Qed.

(** Whatever is read off a log that ignores points, lines and arcs sees only
    the last four calls of the builder. *)
Lemma builder_script_tail {X} (f : call -> list X) lines L mesh_size :
  (forall c, is_primitive c = true -> f c = []) ->
  flat_map f (builder_script lines L mesh_size)
  = flat_map f [ AddCurveLoop (range 1 (len lines + 1)) 1; AddPlaneSurface [1] 1;
                 AddPhysicalGroup 2 [1] 1; SetPhysicalName 2 1 "Tooth" ].
Proof.
  intros Hf. unfold builder_script. rewrite !flat_map_app.
  rewrite !(flat_map_nil_Forall f (loop_script _ _ _ _)); [reflexivity | |].
  - apply loop_script_Forall. intros ln [NPoint NLine].
    unfold line_calls. cbn [fst snd].
    destruct ln; destruct (NLine + 1 =? len lines);
      repeat constructor; now apply Hf.
  - apply loop_script_Forall. intros ln n. unfold point_calls.
    repeat constructor. now apply Hf.
Qed.

Lemma copy_script_silent {X} (f : call -> list X) L ovs : forall ii,
  (forall dt, f (Copy dt) = []) ->
  (forall dt x y z ax ay az a, f (Rotate dt x y z ax ay az a) = []) ->
  flat_map f (copy_script L ii ovs) = [].
Proof.
  induction ovs as [|ov ovs IH]; intros ii Hc Hr; [reflexivity|].
  cbn [copy_script flat_map]. now rewrite Hc, Hr, IH.
Qed.

Lemma copy_script_copies L ovs : forall ii,
  copies (copy_script L ii ovs) = map (fun _ => [(2, 1)]) ovs.
Proof.
  induction ovs as [|ov ovs IH]; intros ii; [reflexivity|].
  cbn [copy_script]. unfold copies in *. cbn [flat_map copy_of app map].
  now rewrite IH.
Qed.

Lemma copy_script_rotations L ovs : forall ii,
  map r_what (rotations (copy_script L ii ovs)) = ovs.
Proof.
  induction ovs as [|ov ovs IH]; intros ii; [reflexivity|].
  cbn [copy_script]. unfold rotations in *.
  cbn [flat_map copy_of rotation_of app map r_what]. now rewrite IH.
Qed.

(** What is read off the log of a whole run. *)
Lemma run_script_facts tooth L zs stator save_path mesh_size Nlayer argv ovs :
  let t := run_script tooth L zs stator save_path mesh_size Nlayer argv ovs in
  let surf_list := 1 :: map first_tag ovs in
  map r_what (rotations t) = ovs /\
  copies t = map (fun _ => [(2, 1)]) ovs /\
  extrusions t
    = map (fun surf => ([(2, surf)], (of_int 0, of_int 0, L), [Nlayer])) surf_list /\
  groups t = [ (2, 1, [1]); (2, 2, surf_list); (3, 1, range 1 (zs + 1)) ] /\
  names t = [ (2, 1, "Tooth"); (2, 2, "Lamination");
              (3, 1, if stator then "stator" else "rotor") ] /\
  writes t = [save_path].
Proof.
  cbn zeta. unfold run_script, rotations, copies, extrusions, groups, names, writes.
  rewrite !flat_map_app.
  rewrite !(builder_script_tail _ tooth L mesh_size)
    by (intros []; (discriminate || reflexivity)).
  rewrite (copy_script_silent extrude_of), (copy_script_silent any_group_of),
    (copy_script_silent any_name_of), (copy_script_silent write_of)
    by reflexivity.
  fold (rotations (copy_script L 0 ovs)). fold (copies (copy_script L 0 ovs)).
  rewrite copy_script_copies.
  rewrite (flat_map_map_nil rotation_of), (flat_map_map_nil copy_of),
    (flat_map_map_nil any_group_of), (flat_map_map_nil any_name_of),
    (flat_map_map_nil write_of) by reflexivity.
  rewrite (flat_map_map_one extrude_of _
             (fun surf => ([(2, surf)], (of_int 0, of_int 0, L), [Nlayer])))
    by reflexivity.
  cbn -[of_int z0 angle range copy_script]. rewrite !app_nil_r.
  now rewrite copy_script_rotations.
Qed.

Lemma group_tags_of_groups dim id t :
  group_tags dim id t = flat_map (members_of dim id) (groups t).
Proof.
  unfold group_tags, groups. induction t as [|c t IH]; [reflexivity|].
  cbn [flat_map]. rewrite flat_map_app, IH. f_equal.
  destruct c; try reflexivity. cbn. now rewrite app_nil_r.
Qed.

Lemma run_eta {St A} (r : result A * St * list call) :
  r = (outcome r, final r, calls r).
Proof. now destruct r as [[? ?] ?]. Qed.

Section RunFacts.

Variable B : backend.

(** A run that returns has read its three inputs and made the calls of
    [run_script]. *)
Lemma gen_log lam save_path mesh_size Nlayer argv (s : bstate B) :
  outcome (gen_3D_mesh B lam save_path mesh_size Nlayer argv s) = Ok tt ->
  exists tooth L zs ovs,
    get_surface_tooth lam = Ok tooth /\ L1 lam = Ok L /\ Zs lam = Ok zs /\
    length ovs = Z.to_nat zs /\ Forall (fun ov => ov <> []) ovs /\
    calls (gen_3D_mesh B lam save_path mesh_size Nlayer argv s)
    = run_script tooth L zs (is_stator lam) save_path mesh_size Nlayer argv ovs.
Proof.
  intros Hok.
  destruct (get_surface_tooth lam) as [tooth|e] eqn:Ht;
    [|unfold gen_3D_mesh in Hok; rewrite Ht in Hok; discriminate].
  destruct (L1 lam) as [L|e] eqn:HL;
    [|unfold gen_3D_mesh in Hok; rewrite Ht, HL in Hok; discriminate].
  destruct (Zs lam) as [zs|e] eqn:Hz;
    [|unfold gen_3D_mesh in Hok; rewrite Ht, HL, Hz in Hok; discriminate].
  rewrite (gen_as_build B lam tooth L zs save_path mesh_size Nlayer argv s Ht HL Hz)
    in Hok |- *.
  destruct (build B tooth L zs (is_stator lam) save_path mesh_size Nlayer argv s)
    as [[r s'] t] eqn:Hrun.
  cbn in Hok. subst r.
  apply build_log in Hrun as (ovs & Hlen & Hne & ->).
  now exists tooth, L, zs, ovs.
Qed.

End RunFacts.

(** X7.  In a run that returns, every copy is a copy of the tooth surface
    [(2, 1)], every [rotate] is given a list that is not empty, the
    "Lamination" group lists surface 1 followed by the first entity of each
    rotated list, in order, and the surfaces extruded are exactly the
    members of that group, one [extrude] each, in the same order. *)
Theorem surfaces_flow (B : backend) (lam : LamSlot) (save_path : string)
    (mesh_size : pyfloat) (Nlayer : Z) (argv : list string) (s : bstate B) :
  let r := gen_3D_mesh B lam save_path mesh_size Nlayer argv s in
  outcome r = Ok tt ->
  let ovs := map r_what (rotations (calls r)) in
  Forall (fun ov => ov <> []) ovs /\
  copies (calls r) = map (fun _ => [(2, 1)]) ovs /\
  group_tags 2 2 (calls r) = [1 :: map first_tag ovs] /\
  map (fun e => fst (fst e)) (extrusions (calls r))
  = map (fun surf => [(2, surf)]) (1 :: map first_tag ovs).
Proof.
  cbn zeta. intros Hok.
  apply gen_log in Hok as (tooth & L & zs & ovs & _ & _ & _ & _ & Hne & ->).
  rewrite group_tags_of_groups.
  destruct (run_script_facts tooth L zs (is_stator lam) save_path mesh_size
              Nlayer argv ovs) as (-> & -> & -> & -> & _).
  repeat split; try assumption.
  rewrite map_map. reflexivity.
Qed.

Lemma surfaces_flow_witness :
  let r := run_fake no_fault (lam_of square 3) in
  let ovs := map r_what (rotations (calls r)) in
  Forall (fun ov => ov <> []) ovs /\
  copies (calls r) = map (fun _ => [(2, 1)]) ovs /\
  group_tags 2 2 (calls r) = [1 :: map first_tag ovs] /\
  map (fun e => fst (fst e)) (extrusions (calls r))
  = map (fun surf => [(2, surf)]) (1 :: map first_tag ovs).
Proof.
  apply (surfaces_flow (fake no_fault) (lam_of square 3) "Lamination.msh"
           0.25%float 2 [] fresh).
  reflexivity.
Defined.

(** X8.  A run that returns has made exactly three physical groups and given
    exactly three names, each name right for its group: dimension 2, id 1,
    surface 1 alone, "Tooth"; dimension 2, id 2, the replicated surfaces,
    "Lamination"; dimension 3, id 1, the handles [range(1, Zs + 1)], "stator"
    or "rotor" after the flag. *)
Theorem three_groups (B : backend) (lam : LamSlot) (save_path : string)
    (mesh_size : pyfloat) (Nlayer : Z) (argv : list string) (s : bstate B)
    (zs : Z) :
  let r := gen_3D_mesh B lam save_path mesh_size Nlayer argv s in
  outcome r = Ok tt -> Zs lam = Ok zs ->
  let surf_list := 1 :: map first_tag (map r_what (rotations (calls r))) in
  groups (calls r)
  = [ (2, 1, [1]); (2, 2, surf_list); (3, 1, range 1 (zs + 1)) ] /\
  names (calls r)
  = [ (2, 1, "Tooth"); (2, 2, "Lamination");
      (3, 1, if is_stator lam then "stator" else "rotor") ].
Proof.
  cbn zeta. intros Hok Hz.
  apply gen_log in Hok as (tooth & L & zs' & ovs & _ & _ & Hz' & _ & _ & ->).
  assert (zs' = zs) as -> by congruence.
  destruct (run_script_facts tooth L zs (is_stator lam) save_path mesh_size
              Nlayer argv ovs) as (-> & _ & _ & -> & -> & _).
  now split.
Qed.

Lemma three_groups_witness :
  let r := run_fake no_fault (lam_of square 3) in
  let surf_list := 1 :: map first_tag (map r_what (rotations (calls r))) in
  groups (calls r)
  = [ (2, 1, [1]); (2, 2, surf_list); (3, 1, range 1 (3 + 1)) ] /\
  names (calls r)
  = [ (2, 1, "Tooth"); (2, 2, "Lamination");
      (3, 1, if is_stator (lam_of square 3) then "stator" else "rotor") ].
Proof.
  apply (three_groups (fake no_fault) (lam_of square 3) "Lamination.msh"
           0.25%float 2 [] fresh 3); reflexivity.
Defined.

(** ** Kernels that raise on no call *)

Section Obliging.

Variable B : backend.
Hypothesis HB : obliging B.

Lemma returns_invoke_obliging c : returns B (invoke B c).
Proof.
  intros s. specialize (HB s c). unfold invoke, outcome. cbn.
  destruct (snd (bstep B s c)) as [ov|e]; [now exists ov | discriminate].
Qed.

Lemma start_model_returns_obliging argv : returns B (start_model B argv).
Proof.
  unfold start_model.
  repeat first [ apply returns_bind; [|intros ?] | apply returns_ret
               | apply returns_invoke_obliging ].
Qed.

Lemma planar_loop_builder_returns_obliging lines L mesh_size :
  returns B (planar_loop_builder B lines L mesh_size).
Proof.
  unfold planar_loop_builder, create_points, point_body, draw_lines,
    create_tooth_surface.
  apply returns_bind.
  { apply returns_for_each. intros ln n.
    apply returns_bind; [apply returns_invoke_obliging | intros _; apply returns_ret]. }
  intros NPoint. apply returns_bind.
  { apply returns_for_each. intros ln [np nl]. unfold line_body.
    destruct (nl + 1 =? len lines); destruct ln;
      repeat first [ apply returns_bind; [|intros ?] | apply returns_ret
                   | apply returns_invoke_obliging ]. }
  intros st.
  repeat first [ apply returns_bind; [|intros ?] | apply returns_ret
               | apply returns_invoke_obliging ].
Qed.

(** Everything after the replication loop. *)
Lemma finish_returns_obliging surf_list L zs stator save_path Nlayer :
  returns B
    (bind (bind (invoke B (AddPhysicalGroup 2 surf_list 2))
                (fun _ => bind (invoke B (SetPhysicalName 2 2 "Lamination"))
                               (fun _ => ret surf_list)))
          (fun surf_list =>
             bind (extrude_all B surf_list L Nlayer)
                  (fun _ => bind (tag_volumes B zs stator)
                                 (fun _ => generate_and_save B save_path)))).
Proof.
  unfold extrude_all, extrude_body, tag_volumes, generate_and_save.
  repeat first [ apply returns_bind; [|intros ?]
               | apply returns_for_each; intros ? ?
               | apply returns_ret
               | apply returns_invoke_obliging ].
Qed.

(** The state and the log of the prelude and the builder. *)
Lemma prelude_runs tooth L mesh_size argv s :
  exists s2,
    bind (start_model B argv) (fun _ => planar_loop_builder B tooth L mesh_size) s
    = (Ok tt, s2,
       [ Initialize argv; SetNumber "General.Terminal" (of_int 1);
         ModelAdd "Pyleecan" ] ++ builder_script tooth L mesh_size).
Proof.
  assert (Hs : scripted B
                 (bind (start_model B argv)
                       (fun _ => planar_loop_builder B tooth L mesh_size))
                 ([ Initialize argv; SetNumber "General.Terminal" (of_int 1);
                    ModelAdd "Pyleecan" ] ++ builder_script tooth L mesh_size) tt).
  { eapply scripted_bind; [apply start_model_scripted|].
    apply planar_loop_builder_scripted. }
  assert (Hr : returns B
                 (bind (start_model B argv)
                       (fun _ => planar_loop_builder B tooth L mesh_size))).
  { apply returns_bind; [apply start_model_returns_obliging|].
    intros _. apply planar_loop_builder_returns_obliging. }
  destruct (Hr s) as ([] & Hok). destruct (Hs s) as [_ Hcalls].
  destruct (Hcalls tt Hok) as [_ Ht].
  eexists. rewrite (run_eta (bind _ _ s)), Hok, Ht. reflexivity.
Qed.

End Obliging.

Lemma bind_assoc_run (B : backend) {A C D} (m : M B A) (k : A -> M B C)
    (h : C -> M B D) s :
  bind (bind m k) h s = bind m (fun a => bind (k a) h) s.
Proof.
  unfold bind. destruct (m s) as [[[a|e] s1] t1]; [|reflexivity].
  destruct (k a s1) as [[[c|e] s2] t2]; [|reflexivity].
  destruct (h c s2) as [[r s3] t3]. now rewrite app_assoc.
Qed.

Lemma bind_ext_run (B : backend) {A C} (m : M B A) (k1 k2 : A -> M B C) s :
  (forall a s', k1 a s' = k2 a s') -> bind m k1 s = bind m k2 s.
Proof.
  intros H. unfold bind. destruct (m s) as [[[a|e] s1] t1]; [|reflexivity].
  now rewrite H.
Qed.

(** [build], cut after the builder. *)
Lemma build_split (B : backend) tooth L zs stator save_path mesh_size Nlayer argv s :
  build B tooth L zs stator save_path mesh_size Nlayer argv s
  = bind (bind (start_model B argv)
               (fun _ => planar_loop_builder B tooth L mesh_size))
         (fun _ =>
            bind (copy_rotate B L zs)
                 (fun surf_list =>
                    bind (extrude_all B surf_list L Nlayer)
                         (fun _ => bind (tag_volumes B zs stator)
                                        (fun _ => generate_and_save B save_path)))) s.
Proof. unfold build. now rewrite bind_assoc_run. Qed.

Section Openers.

Variable B : backend.
Variable P : call -> Prop.
Hypothesis HP : forall c, is_closing c = false -> P c.

Lemma line_body_opens nlines L mesh_size ln st :
  emits B P (line_body B nlines L mesh_size ln st).
Proof.
  destruct st as [NPoint NLine]. unfold line_body.
  destruct (NLine + 1 =? nlines); destruct ln; emits_tac; now apply HP.
Qed.

Lemma copy_body_opens L ii surf_list : emits B P (copy_body B L ii surf_list).
Proof.
  unfold copy_body.
  apply emits_bind; [emits_tac; now apply HP|]. intros ov.
  apply emits_bind; [emits_tac; now apply HP|]. intros _.
  destruct ov as [|[d t] ov]; emits_tac.
Qed.

(** Everything before "Generate the 3D mesh" makes none of the closing
    calls. *)
Lemma opening_emits tooth L zs stator mesh_size Nlayer argv :
  emits B P
    (bind (start_model B argv) (fun _ =>
     bind (planar_loop_builder B tooth L mesh_size) (fun _ =>
     bind (copy_rotate B L zs) (fun surf_list =>
     bind (extrude_all B surf_list L Nlayer) (fun _ =>
     tag_volumes B zs stator))))).
Proof.
  unfold start_model, planar_loop_builder, create_points, point_body, draw_lines,
    create_tooth_surface, copy_rotate, extrude_all, extrude_body, tag_volumes.
  apply emits_bind; [emits_tac; now apply HP|]. intros _.
  apply emits_bind.
  { apply emits_bind; [emits_tac; now apply HP|]. intros NPoint.
    apply emits_bind; [|intros st; emits_tac; now apply HP].
    apply emits_for_each. intros; apply line_body_opens. }
  intros _. apply emits_bind.
  { apply emits_bind; [|intros sl; emits_tac; now apply HP].
    apply emits_for_each. intros; apply copy_body_opens. }
  intros sl. emits_tac; now apply HP.
Qed.

End Openers.

(** [build], cut before "Generate the 3D mesh". *)
Lemma build_split_closing (B : backend) tooth L zs stator save_path mesh_size
    Nlayer argv s :
  build B tooth L zs stator save_path mesh_size Nlayer argv s
  = bind (bind (start_model B argv) (fun _ =>
          bind (planar_loop_builder B tooth L mesh_size) (fun _ =>
          bind (copy_rotate B L zs) (fun surf_list =>
          bind (extrude_all B surf_list L Nlayer) (fun _ =>
          tag_volumes B zs stator)))))
         (fun _ => generate_and_save B save_path) s.
Proof.
  unfold build. rewrite bind_assoc_run. apply bind_ext_run. intros _ s1.
  rewrite bind_assoc_run. apply bind_ext_run. intros _ s2.
  rewrite bind_assoc_run. apply bind_ext_run. intros sl s3.
  now rewrite bind_assoc_run.
Qed.

Section Writing.

Variable B : backend.

Lemma generate_and_save_shape save_path s :
  write_shape save_path (calls (generate_and_save B save_path s)).
Proof.
  unfold generate_and_save, bind, invoke, ret.
  destruct (snd (bstep B s Synchronize)); [|now left].
  destruct (snd (bstep B _ (Generate 3))); [|now left].
  destruct (snd (bstep B _ (Write save_path)));
    [|right; exists [], []; cbn; tauto].
  destruct (snd (bstep B _ Finalize));
    right; exists [], [Finalize]; cbn; tauto.
Qed.

Lemma write_shape_after {A C} save_path (m : M B A) (k : A -> M B C) :
  emits B (fun c => write_of c = []) m ->
  (forall a s, write_shape save_path (calls (k a s))) ->
  forall s, write_shape save_path (calls (bind m k s)).
Proof.
  intros Hm Hk s. specialize (Hm s). apply flat_map_nil_Forall in Hm.
  fold (writes (calls (m s))) in Hm. unfold bind.
  destruct (m s) as [[[a|e] s1] t1]; cbn [calls snd] in *; [|now left].
  specialize (Hk a s1). destruct (k a s1) as [[r s2] t2]. cbn [calls snd] in *.
  destruct Hk as [Hk | (t0 & rest & -> & Ht0 & Hrest)].
  - left. unfold writes in *. now rewrite flat_map_app, Hm, Hk.
  - right. exists (t1 ++ t0), rest. rewrite app_assoc. repeat split; trivial.
    unfold writes in *. now rewrite flat_map_app, Hm, Ht0.
Qed.

Lemma gen_write_shape lam save_path mesh_size Nlayer argv s :
  write_shape save_path (calls (gen_3D_mesh B lam save_path mesh_size Nlayer argv s)).
Proof.
  destruct (get_surface_tooth lam) as [tooth|e] eqn:Ht;
    [|unfold gen_3D_mesh; rewrite Ht; now left].
  destruct (L1 lam) as [L|e] eqn:HL;
    [|unfold gen_3D_mesh; rewrite Ht, HL; now left].
  destruct (Zs lam) as [zs|e] eqn:Hz;
    [|unfold gen_3D_mesh; rewrite Ht, HL, Hz; now left].
  rewrite (gen_as_build B lam tooth L zs save_path mesh_size Nlayer argv s Ht HL Hz).
  rewrite build_split_closing. apply write_shape_after.
  - apply opening_emits. intros []; (discriminate || reflexivity).
  - intros _ s1. apply generate_and_save_shape.
Qed.

End Writing.

(** X9.  Over any kernel, a run writes at most once, to [save_path], and
    only right after [synchronize()] and [generate(3)], when these and every
    call before them have been answered with a value: no file is written
    when mesh generation raises.  After the write comes [finalize] or
    nothing. *)
Theorem write_after_generate (B : backend) (lam : LamSlot) (save_path : string)
    (mesh_size : pyfloat) (Nlayer : Z) (argv : list string) (s : bstate B) :
  let r := gen_3D_mesh B lam save_path mesh_size Nlayer argv s in
  writes (calls r) = [] \/
  exists t0 rest,
    calls r = t0 ++ [Synchronize; Generate 3; Write save_path] ++ rest /\
    writes t0 = [] /\ (rest = [] \/ rest = [Finalize]) /\
    all_returned B s (t0 ++ [Synchronize; Generate 3]) = true.
Proof.
  cbn zeta.
  destruct (gen_write_shape B lam save_path mesh_size Nlayer argv s)
    as [H | (t0 & rest & Hlog & Ht0 & Hrest)]; [now left|].
  right. exists t0, rest. repeat split; trivial.
  destruct (clean_gen_3D_mesh B lam save_path mesh_size Nlayer argv s)
    as (_ & Hret & _).
  rewrite Hlog in Hret.
  destruct Hrest as [-> | ->].
  - change (t0 ++ [Synchronize; Generate 3; Write save_path] ++ [])
      with (t0 ++ [Synchronize; Generate 3] ++ [Write save_path]) in Hret.
    now rewrite !app_assoc, removelast_last in Hret.
  - change (t0 ++ [Synchronize; Generate 3; Write save_path] ++ [Finalize])
      with (t0 ++ [Synchronize; Generate 3] ++ [Write save_path] ++ [Finalize])
      in Hret.
    rewrite !app_assoc, removelast_last in Hret.
    rewrite all_returned_app in Hret. now apply andb_true_iff in Hret.
Qed.

(** ** No slot, and no copy *)

Lemma copy_rotate_no_slot (B : backend) L zs :
  obliging B -> zs <= 0 -> returns B (copy_rotate B L zs).
Proof.
  intros HB Hzs. unfold copy_rotate. rewrite range_nil by lia. cbn [for_each].
  repeat first [ apply returns_bind; [|intros ?] | apply returns_ret
               | apply (returns_invoke_obliging B HB) ].
Qed.

Lemma build_no_slot_returns (B : backend) tooth L zs stator save_path mesh_size
    Nlayer argv :
  obliging B -> zs <= 0 ->
  returns B (build B tooth L zs stator save_path mesh_size Nlayer argv).
Proof.
  intros HB Hzs. unfold build.
  apply returns_bind; [now apply start_model_returns_obliging|]. intros _.
  apply returns_bind; [now apply planar_loop_builder_returns_obliging|]. intros _.
  apply returns_bind; [now apply copy_rotate_no_slot|]. intros sl.
  unfold extrude_all, extrude_body, tag_volumes, generate_and_save.
  repeat first [ apply returns_bind; [|intros ?]
               | apply returns_for_each; intros ? ?
               | apply returns_ret
               | apply (returns_invoke_obliging B HB) ].
Qed.

(** X10.  With a slot count of zero or less, over a kernel that raises on no
    call, the function still runs to the end: nothing is copied or rotated,
    the "Lamination" group holds surface 1 alone, that one surface is
    extruded, and the group of dimension 3 and id 1 is made with no member
    at all. *)
Theorem no_slot (B : backend) (lam : LamSlot) (tooth : list line) (L : pyfloat)
    (zs : Z) (save_path : string) (mesh_size : pyfloat) (Nlayer : Z)
    (argv : list string) (s : bstate B) :
  obliging B ->
  get_surface_tooth lam = Ok tooth -> L1 lam = Ok L -> Zs lam = Ok zs ->
  zs <= 0 ->
  let r := gen_3D_mesh B lam save_path mesh_size Nlayer argv s in
  outcome r = Ok tt /\
  copies (calls r) = [] /\
  rotations (calls r) = [] /\
  groups (calls r) = [ (2, 1, [1]); (2, 2, [1]); (3, 1, []) ] /\
  extrusions (calls r) = [ ([(2, 1)], (of_int 0, of_int 0, L), [Nlayer]) ].
Proof.
  intros HB Ht HL Hz Hzs. cbn zeta.
  assert (Hok : outcome (gen_3D_mesh B lam save_path mesh_size Nlayer argv s)
                = Ok tt).
  { rewrite (gen_as_build B lam tooth L zs save_path mesh_size Nlayer argv s
               Ht HL Hz).
    destruct (build_no_slot_returns B tooth L zs (is_stator lam) save_path
                mesh_size Nlayer argv HB Hzs s) as ([] & H).
    exact H. }
  split; [exact Hok|].
  apply gen_log in Hok
    as (tooth' & L' & zs' & ovs & Ht' & HL' & Hz' & Hlen & _ & ->).
  assert (tooth' = tooth) as -> by congruence.
  assert (L' = L) as -> by congruence.
  assert (zs' = zs) as -> by congruence.
  replace (Z.to_nat zs) with 0%nat in Hlen by lia.
  destruct ovs; [|discriminate].
  pose proof (run_script_facts tooth L zs (is_stator lam) save_path mesh_size
                Nlayer argv []) as H.
  cbn zeta in H. destruct H as (Hrot & Hcp & Hex & Hgr & _).
  apply map_eq_nil in Hrot. rewrite range_nil in Hgr by lia.
  repeat split; [exact Hcp | exact Hrot | exact Hgr | exact Hex].
Qed.

Lemma no_slot_witness :
  let r := run_fake no_fault (lam_of square 0) in
  outcome r = Ok tt /\
  copies (calls r) = [] /\
  rotations (calls r) = [] /\
  groups (calls r) = [ (2, 1, [1]); (2, 2, [1]); (3, 1, []) ] /\
  extrusions (calls r) = [ ([(2, 1)], (of_int 0, of_int 0, 0.5%float), [2]) ].
Proof.
  apply (no_slot (fake no_fault) (lam_of square 0) square 0.5%float 0
           "Lamination.msh" 0.25%float 2 [] fresh);
    [exact fake_obliging | reflexivity | reflexivity | reflexivity | lia].
Defined.

Lemma copy_rotate_empty (B : backend) L zs s :
  obliging B -> (forall s', snd (bstep B s' (Copy [(2, 1)])) = Ok []) ->
  1 <= zs ->
  exists s3,
    copy_rotate B L zs s
    = (Raise IndexError, s3,
       [ Copy [(2, 1)];
         Rotate [] (of_int 0) (of_int 0) (z0 L) (of_int 0) (of_int 0) (of_int 1)
                (angle 0) ]).
Proof.
  intros HB Hcopy Hzs. unfold copy_rotate. rewrite range_cons by lia.
  cbn [for_each]. unfold bind at 1 2. unfold copy_body, bind, invoke.
  rewrite Hcopy.
  match goal with
  | |- context [snd (bstep B ?s1 (Rotate ?a ?b ?c ?d ?e ?f ?g ?h))] =>
      pose proof (HB s1 (Rotate a b c d e f g h)) as Hr;
      destruct (snd (bstep B s1 (Rotate a b c d e f g h))); [|discriminate]
  end.
  eexists. reflexivity.
Qed.

(** X11.  Over a kernel that raises on no call but answers [copy] with the
    empty list, and with at least one slot, the function raises
    [IndexError]: it has built the tooth, made one copy and called
    [rotate] on the empty list, and stops there, with no "Lamination"
    group, no extrusion, no mesh, no file and no [finalize]. *)
Theorem empty_copy_raises (B : backend) (lam : LamSlot) (tooth : list line)
    (L : pyfloat) (zs : Z) (save_path : string) (mesh_size : pyfloat)
    (Nlayer : Z) (argv : list string) (s : bstate B) :
  obliging B ->
  (forall s', snd (bstep B s' (Copy [(2, 1)])) = Ok []) ->
  get_surface_tooth lam = Ok tooth -> L1 lam = Ok L -> Zs lam = Ok zs ->
  1 <= zs ->
  let r := gen_3D_mesh B lam save_path mesh_size Nlayer argv s in
  outcome r = Raise IndexError /\
  calls r
  = [ Initialize argv; SetNumber "General.Terminal" (of_int 1);
      ModelAdd "Pyleecan" ]
    ++ builder_script tooth L mesh_size
    ++ [ Copy [(2, 1)];
         Rotate [] (of_int 0) (of_int 0) (z0 L) (of_int 0) (of_int 0) (of_int 1)
                (angle 0) ].
Proof.
  intros HB Hcopy Ht HL Hz Hzs. cbn zeta.
  rewrite (gen_as_build B lam tooth L zs save_path mesh_size Nlayer argv s Ht HL Hz).
  rewrite build_split.
  destruct (prelude_runs B HB tooth L mesh_size argv s) as (s2 & E).
  destruct (copy_rotate_empty B L zs s2 HB Hcopy Hzs) as (s3 & E3).
  match goal with
  | |- outcome ?run = _ /\ _ =>
      assert (Hrun : run
                = (Raise IndexError, s3,
                   ([ Initialize argv; SetNumber "General.Terminal" (of_int 1);
                      ModelAdd "Pyleecan" ] ++ builder_script tooth L mesh_size)
                   ++ [ Copy [(2, 1)];
                        Rotate [] (of_int 0) (of_int 0) (z0 L) (of_int 0)
                               (of_int 0) (of_int 1) (angle 0) ]))
  end.
  { unfold bind at 1. rewrite E. unfold bind at 1. now rewrite E3. }
  rewrite Hrun. split; [reflexivity|]. cbn [calls snd].
  now rewrite <- app_assoc.
Qed.

Lemma empty_copy_raises_witness :
  let r := gen_3D_mesh mute (lam_of square 3) "Lamination.msh" 0.25%float 2 [] tt in
  outcome r = Raise IndexError /\
  calls r
  = [ Initialize []; SetNumber "General.Terminal" (of_int 1);
      ModelAdd "Pyleecan" ]
    ++ builder_script square 0.5%float 0.25%float
    ++ [ Copy [(2, 1)];
         Rotate [] (of_int 0) (of_int 0) (z0 0.5%float) (of_int 0) (of_int 0)
                (of_int 1) (angle 0) ].
Proof.
  apply (empty_copy_raises mute (lam_of square 3) square 0.5%float 3
           "Lamination.msh" 0.25%float 2 [] tt);
    [intros s c; reflexivity | intros s'; reflexivity
    | reflexivity | reflexivity | reflexivity | lia].
Defined.

(** ** Placement of the copies, and the whole log *)

Lemma copy_script_placements L ovs : forall ii,
  map placement (rotations (copy_script L ii ovs))
  = map (fun i => ((of_int 0, of_int 0, z0 L),
                   (of_int 0, of_int 0, of_int 1), angle i))
        (range ii (ii + len ovs)).
Proof.
  induction ovs as [|ov ovs IH]; intros ii.
  - rewrite range_nil by (unfold len; cbn; lia). reflexivity.
  - rewrite len_cons, range_cons by (pose proof (len_nonneg ovs); lia).
    cbn [copy_script]. unfold rotations in *.
    cbn [flat_map copy_of rotation_of app map]. rewrite IH.
    unfold placement at 1. cbn [r_pivot r_axis r_angle].
    do 3 f_equal. lia.
Qed.

(** X12.  In a run that returns, with [L] the length read and [Zs] the slot
    count read, there is one rotation for each [ii] in [range(Zs)], in order;
    each is about the axis (0, 0, 1) through the point (0, 0, -L / 2), by the
    angle [(ii + 1) * 2 * pi / 36] counted from the tooth itself, not from
    the copy before. *)
Theorem copies_placed (B : backend) (lam : LamSlot) (save_path : string)
    (mesh_size : pyfloat) (Nlayer : Z) (argv : list string) (s : bstate B)
    (L : pyfloat) (zs : Z) :
  let r := gen_3D_mesh B lam save_path mesh_size Nlayer argv s in
  outcome r = Ok tt -> L1 lam = Ok L -> Zs lam = Ok zs ->
  map placement (rotations (calls r))
  = map (fun ii => ((of_int 0, of_int 0, PrimFloat.div (PrimFloat.opp L) (of_int 2)),
                    (of_int 0, of_int 0, of_int 1),
                    PrimFloat.div (PrimFloat.mul (of_int ((ii + 1) * 2)) pi)
                                  (of_int 36)))
        (range 0 zs).
Proof.
  cbn zeta. intros Hok HL Hz.
  apply gen_log in Hok as (tooth & L' & zs' & ovs & _ & HL' & Hz' & Hlen & _ & ->).
  assert (L' = L) as -> by congruence.
  assert (zs' = zs) as -> by congruence.
  unfold run_script, rotations. rewrite !flat_map_app.
  rewrite (builder_script_tail rotation_of)
    by (intros []; (discriminate || reflexivity)).
  rewrite (flat_map_map_nil rotation_of) by reflexivity.
  cbn [flat_map rotation_of app]. rewrite !app_nil_r.
  fold (rotations (copy_script L 0 ovs)). rewrite copy_script_placements.
  rewrite (range_from_zero zs). unfold len.
  apply (f_equal2 (@map Z _)); [reflexivity|].
  do 3 f_equal. exact Hlen.
Qed.

Lemma copies_placed_witness :
  let r := run_fake no_fault (lam_of square 3) in
  map placement (rotations (calls r))
  = map (fun ii => ((of_int 0, of_int 0,
                     PrimFloat.div (PrimFloat.opp 0.5%float) (of_int 2)),
                    (of_int 0, of_int 0, of_int 1),
                    PrimFloat.div (PrimFloat.mul (of_int ((ii + 1) * 2)) pi)
                                  (of_int 36)))
        (range 0 3).
Proof.
  apply (copies_placed (fake no_fault) (lam_of square 3) "Lamination.msh"
           0.25%float 2 [] fresh 0.5%float 3); reflexivity.
Defined.

(** X13.  The log of a run that returns is fixed by the arguments and by the
    lists that [copy] answered (which are the lists rotated): it is the
    prelude, the calls of the builder, one [copy]/[rotate] pair per slot,
    the "Lamination" group, one [extrude] per surface, the volume group, and
    [synchronize], [generate(3)], [write], [finalize]. *)
Theorem run_log (B : backend) (lam : LamSlot) (save_path : string)
    (mesh_size : pyfloat) (Nlayer : Z) (argv : list string) (s : bstate B)
    (tooth : list line) (L : pyfloat) (zs : Z) :
  let r := gen_3D_mesh B lam save_path mesh_size Nlayer argv s in
  outcome r = Ok tt ->
  get_surface_tooth lam = Ok tooth -> L1 lam = Ok L -> Zs lam = Ok zs ->
  calls r
  = run_script tooth L zs (is_stator lam) save_path mesh_size Nlayer argv
               (map r_what (rotations (calls r))) /\
  length (rotations (calls r)) = Z.to_nat zs.
Proof.
  cbn zeta. intros Hok Ht HL Hz.
  apply gen_log in Hok
    as (tooth' & L' & zs' & ovs & Ht' & HL' & Hz' & Hlen & _ & E).
  assert (tooth' = tooth) as -> by congruence.
  assert (L' = L) as -> by congruence.
  assert (zs' = zs) as -> by congruence.
  pose proof (run_script_facts tooth L zs (is_stator lam) save_path mesh_size
                Nlayer argv ovs) as H.
  cbn zeta in H. destruct H as (Hrot & _). rewrite <- E in Hrot.
  rewrite Hrot. split; [exact E|].
  rewrite <- (length_map r_what), Hrot. exact Hlen.
Qed.

Lemma run_log_witness :
  let r := run_fake no_fault (lam_of wedge 2) in
  calls r
  = run_script wedge 0.5%float 2 true "Lamination.msh" 0.25%float 2 []
               (map r_what (rotations (calls r))) /\
  length (rotations (calls r)) = Z.to_nat 2.
Proof.
  apply (run_log (fake no_fault) (lam_of wedge 2) "Lamination.msh"
           0.25%float 2 [] fresh wedge 0.5%float 2); reflexivity.
Defined.

(** ** Release of the kernel, with the answers of the kernel *)


